(** * Transactions and bundles of iota/transaction/base.py

    A shallow embedding of [Transaction] and [Bundle] and the properties of
    their codec, grouping, ordering and message extraction.

    Python objects are modelled as records, tryte strings as lists of
    trytes, integers as [Z], raised exceptions as the [Raise] branch of
    [result].  The collaborators that base.py imports (the ternary codec,
    the tryte string types, the sponge, the text decoder) are not part of
    base.py; they are either modelled from the specification or taken as
    parameters of the section that holds the embedding. *)

From Stdlib Require Import ZArith Lia String Ascii.
From stdpp Require Import base option list sorting strings gmap.

(** ** Exceptions *)

(** The exceptions base.py raises, catches or lets through. [RangeError]
    and [InvalidLength] are the names the specification gives to the
    failures of the ternary codec and of the body length check. *)
Inductive exn : Type :=
  | IndexError
  | InvalidLength
  | RangeError
  | TrytesDecodeError
  | UnicodeDecodeError.

Inductive result (A : Type) : Type :=
  | Ok (a : A)
  | Raise (e : exn).

Arguments Ok {A} a.
Arguments Raise {A} e.

#[global] Instance result_ret : MRet result := @Ok.

#[global] Instance result_bind : MBind result := fun A B k m =>
  match m with
  | Ok a => k a
  | Raise e => Raise e
  end.

(** ** Ternary codec (iota.trits) *)

(** Modelled from the spec: [int_from_trits] of iota.trits, which base.py
    imports; it decodes a balanced-ternary digit sequence to a signed
    integer.  The first trit is the least significant one. *)
Fixpoint int_from_trits (trits : list Z) : Z :=
  match trits with
  | [] => 0
  | t :: rest => t + 3 * int_from_trits rest
  end%Z.

(** Modelled from the spec: the digits [trits_from_int] writes, the
    balanced-ternary digits of [value], least significant first, exactly
    [pad] of them. *)
Fixpoint digits (value : Z) (pad : nat) : list Z :=
  match pad with
  | O => []
  | S pad' =>
      let r := ((value + 1) mod 3 - 1)%Z in
      r :: digits ((value - r) / 3)%Z pad'
  end.

(** A balanced trit is -1, 0 or 1. *)
Definition balanced (t : Z) : Prop := (-1 <= t <= 1)%Z.

(** Linear arithmetic with division and remainder by constants. *)
Ltac div_lia := Z.div_mod_to_equations; lia.

(** The largest magnitude [pad] balanced trits represent. *)
Definition max_int (pad : nat) : Z := ((3 ^ Z.of_nat pad - 1) / 2)%Z.

(** Modelled from the spec: [trits_from_int] of iota.trits; it encodes a
    signed integer into exactly [pad] balanced trits, zero-padded on the
    high end, and fails with RangeError when the magnitude of the value
    exceeds what [pad] digits represent. *)
Definition trits_from_int (value : Z) (pad : nat) : result (list Z) :=
  if (Z.abs value <=? max_int pad)%Z then Ok (digits value pad)
  else Raise RangeError.

(** ** Tryte strings (iota.types) *)

(** Modelled from the spec: the 27 symbols of the ternary alphabet, 9 and
    A to Z. A [TryteString] of iota.types holds symbols of this alphabet
    only, so the type of trytes has exactly these inhabitants. *)
Inductive tryte : Type :=
  | t9 | tA | tB | tC | tD | tE | tF | tG | tH | tI | tJ | tK | tL | tM
  | tN | tO | tP | tQ | tR | tS | tT | tU | tV | tW | tX | tY | tZ.

#[global] Instance tryte_eq_dec : EqDecision tryte.
Proof. solve_decision. Defined.

Definition TryteString : Type := list tryte.

(** Modelled from the spec: the value of a tryte (27-symbol alphabet, three
    trits per symbol): 9 is 0, A to M are 1 to 13, N to Z are -13 to -1. *)
Definition tryte_value (c : tryte) : Z :=
  match c with
  | t9 => 0 | tA => 1 | tB => 2 | tC => 3 | tD => 4 | tE => 5 | tF => 6
  | tG => 7 | tH => 8 | tI => 9 | tJ => 10 | tK => 11 | tL => 12 | tM => 13
  | tN => -13 | tO => -12 | tP => -11 | tQ => -10 | tR => -9 | tS => -8
  | tT => -7 | tU => -6 | tV => -5 | tW => -4 | tX => -3 | tY => -2
  | tZ => -1
  end%Z.

(** Modelled from the spec: the tryte of a value, the inverse of
    [tryte_value]; values that no three balanced trits produce have no
    symbol and are mapped to 9. *)
Definition tryte_from_int (v : Z) : tryte :=
  match v with
  | 0 => t9 | 1 => tA | 2 => tB | 3 => tC | 4 => tD | 5 => tE | 6 => tF
  | 7 => tG | 8 => tH | 9 => tI | 10 => tJ | 11 => tK | 12 => tL | 13 => tM
  | -13 => tN | -12 => tO | -11 => tP | -10 => tQ | -9 => tR | -8 => tS
  | -7 => tT | -6 => tU | -5 => tV | -4 => tW | -3 => tX | -2 => tY
  | -1 => tZ
  | _ => t9
  end%Z.

(** Modelled from the spec: [TryteString.as_trits], three trits per
    symbol. *)
Definition as_trits (s : TryteString) : list Z :=
  flat_map (fun c => digits (tryte_value c) 3) s.

(** Modelled from the spec: [TryteString.from_trits]; the trits are read
    three at a time, a last incomplete group being completed with zeros. *)
Fixpoint from_trits (trits : list Z) : TryteString :=
  match trits with
  | [] => []
  | [a] => [tryte_from_int (int_from_trits [a; 0; 0]%Z)]
  | [a; b] => [tryte_from_int (int_from_trits [a; b; 0]%Z)]
  | a :: b :: c :: rest => tryte_from_int (int_from_trits [a; b; c]) :: from_trits rest
  end.

(** The truth value of a tryte string, [TryteString.__bool__] of
    iota.types: true when the string holds a tryte other than 9, so an
    empty string and a string of padding only are both false. iota.types
    is outside base.py and the specification does not describe this
    method; the theorems below hold for any truth value, and this one is
    used where the code is run on an input. *)
Definition TryteString_bool (s : TryteString) : bool :=
  existsb (fun c => negb (bool_decide (c = t9))) s.

(** [len(s)], an integer. *)
Definition len (s : TryteString) : Z := Z.of_nat (length s).

(** [s[i:j]] for integers [0 <= i <= j]. *)
Definition slice (i j : Z) (s : TryteString) : TryteString :=
  take (Z.to_nat (j - i)) (drop (Z.to_nat i) s).

(** Modelled from the spec: the constructor [TransactionTrytes]; a body is
    exactly 2673 trytes, anything else fails with InvalidLength. *)
Definition TransactionTrytes (trytes : TryteString) : result TryteString :=
  if (len trytes =? 2673)%Z then Ok trytes else Raise InvalidLength.

(** Modelled from the spec: the attribute [address] of an [Address] of
    iota.types, the 81 trytes of the address field, without the checksum
    that an [Address] may carry after them. *)
Definition Address_address (a : TryteString) : TryteString := slice 0 81 a.

(** ** Transaction *)

(** The attributes [Transaction.__init__] sets. The attributes that
    [as_tryte_string] concatenates or encodes are modelled as set; [hash],
    [_legacy_tag] and [is_confirmed] may be [None]. *)
Record Transaction : Type := {
  hash : option TryteString;
  bundle_hash : TryteString;
  address : TryteString;
  value : Z;
  _legacy_tag : option TryteString;
  nonce : TryteString;
  timestamp : Z;
  current_index : Z;
  last_index : Z;
  trunk_transaction_hash : TryteString;
  branch_transaction_hash : TryteString;
  tag : TryteString;
  attachment_timestamp : Z;
  attachment_timestamp_lower_bound : Z;
  attachment_timestamp_upper_bound : Z;
  signature_message_fragment : TryteString;
  is_confirmed : option bool
}.

(** [Transaction.__init__]: the arguments in the order of the signature,
    [legacy_tag] last with its default [None]; [is_confirmed] starts as
    [None]. *)
Definition Transaction___init__
    (hash_ : option TryteString) (signature_message_fragment address : TryteString)
    (value timestamp current_index last_index : Z)
    (bundle_hash trunk_transaction_hash branch_transaction_hash tag : TryteString)
    (attachment_timestamp attachment_timestamp_lower_bound
       attachment_timestamp_upper_bound : Z)
    (nonce : TryteString) (legacy_tag : option TryteString) : Transaction :=
  {| hash := hash_;
     bundle_hash := bundle_hash;
     address := address;
     value := value;
     _legacy_tag := legacy_tag;
     nonce := nonce;
     timestamp := timestamp;
     current_index := current_index;
     last_index := last_index;
     trunk_transaction_hash := trunk_transaction_hash;
     branch_transaction_hash := branch_transaction_hash;
     tag := tag;
     attachment_timestamp := attachment_timestamp;
     attachment_timestamp_lower_bound := attachment_timestamp_lower_bound;
     attachment_timestamp_upper_bound := attachment_timestamp_upper_bound;
     signature_message_fragment := signature_message_fragment;
     is_confirmed := None |}.

(** [txn.is_confirmed = new_is_confirmed]. *)
Definition set_is_confirmed (new_is_confirmed : option bool) (txn : Transaction)
    : Transaction :=
  {| hash := hash txn;
     bundle_hash := bundle_hash txn;
     address := address txn;
     value := value txn;
     _legacy_tag := _legacy_tag txn;
     nonce := nonce txn;
     timestamp := timestamp txn;
     current_index := current_index txn;
     last_index := last_index txn;
     trunk_transaction_hash := trunk_transaction_hash txn;
     branch_transaction_hash := branch_transaction_hash txn;
     tag := tag txn;
     attachment_timestamp := attachment_timestamp txn;
     attachment_timestamp_lower_bound := attachment_timestamp_lower_bound txn;
     attachment_timestamp_upper_bound := attachment_timestamp_upper_bound txn;
     signature_message_fragment := signature_message_fragment txn;
     is_confirmed := new_is_confirmed |}.

(** [is_tail]. *)
Definition is_tail (txn : Transaction) : bool := (current_index txn =? 0)%Z.

(** [TryteString.from_trits(trits_from_int(n, pad))]. *)
Definition int_as_trytes (n : Z) (pad : nat) : result TryteString :=
  trits ← trits_from_int n pad; mret (from_trits trits).

(** Padding to 81 trits. *)
Definition value_as_trytes (txn : Transaction) : result TryteString :=
  int_as_trytes (value txn) 81.

(** Padding to 27 trits. *)
Definition timestamp_as_trytes (txn : Transaction) : result TryteString :=
  int_as_trytes (timestamp txn) 27.

Definition current_index_as_trytes (txn : Transaction) : result TryteString :=
  int_as_trytes (current_index txn) 27.

Definition last_index_as_trytes (txn : Transaction) : result TryteString :=
  int_as_trytes (last_index txn) 27.

Definition attachment_timestamp_as_trytes (txn : Transaction) : result TryteString :=
  int_as_trytes (attachment_timestamp txn) 27.

Definition attachment_timestamp_lower_bound_as_trytes (txn : Transaction)
    : result TryteString :=
  int_as_trytes (attachment_timestamp_lower_bound txn) 27.

Definition attachment_timestamp_upper_bound_as_trytes (txn : Transaction)
    : result TryteString :=
  int_as_trytes (attachment_timestamp_upper_bound txn) 27.

(** ** Bundle *)

(** The attributes of a [Bundle]: the list [transactions] and the flag
    [_is_confirmed]. *)
Record Bundle : Type := {
  transactions : list Transaction;
  _is_confirmed : option bool
}.

(** Python's [sorted(iterable, key=...)], a stable sort: an element is put
    before the first element of the sorted rest whose key is not smaller,
    so elements with equal keys stay in input order. *)
Fixpoint insert_by {A : Type} (key : A -> Z) (x : A) (l : list A) : list A :=
  match l with
  | [] => [x]
  | y :: l' => if (key x <=? key y)%Z then x :: l else y :: insert_by key x l'
  end.

Fixpoint sorted {A : Type} (key : A -> Z) (l : list A) : list A :=
  match l with
  | [] => []
  | x :: l' => insert_by key x (sorted key l')
  end.

(** Ascending order of the keys. *)
Definition key_le {A : Type} (key : A -> Z) (x y : A) : Prop :=
  (key x <= key y)%Z.

(** [Bundle.__init__(transactions=None)]: [if transactions:] is false for
    [None] and for an empty list. *)
Definition Bundle___init__ (txns : option (list Transaction)) : Bundle :=
  let transactions := [] in
  let transactions :=
    match txns with
    | Some ((_ :: _) as l) => transactions ++ sorted current_index l
    | _ => transactions
    end in
  {| transactions := transactions; _is_confirmed := None |}.

(** [Bundle.__len__]. *)
Definition Bundle___len__ (b : Bundle) : nat := length (transactions b).

(** [Bundle.__getitem__]: the indexing of a Python list, negative indices
    counting from the end, IndexError outside. *)
Definition Bundle___getitem__ (b : Bundle) (index : Z) : result Transaction :=
  let n := Z.of_nat (length (transactions b)) in
  let i := if (index <? 0)%Z then (index + n)%Z else index in
  if ((0 <=? i) && (i <? n))%Z then
    match transactions b !! Z.to_nat i with
    | Some txn => Ok txn
    | None => Raise IndexError
    end
  else Raise IndexError.

(** [Bundle.tail_transaction]: [self[0]]. *)
Definition tail_transaction (b : Bundle) : result Transaction :=
  Bundle___getitem__ b 0.

(** [Bundle.hash]: the IndexError of [tail_transaction] becomes [None]. *)
Definition Bundle_hash (b : Bundle) : result (option TryteString) :=
  match tail_transaction b with
  | Ok txn => Ok (Some (bundle_hash txn))
  | Raise IndexError => Ok None
  | Raise e => Raise e
  end.

(** The loop of [group_transactions] over [self.transactions[1:]], with
    its three variables. *)
Fixpoint group_loop (last_txn : Transaction) (current_group : list Transaction)
    (groups : list (list Transaction)) (rest : list Transaction)
    : list (list Transaction) * list Transaction :=
  match rest with
  | [] => (groups, current_group)
  | current_txn :: rest' =>
      if bool_decide (address current_txn = address last_txn)
      then group_loop current_txn (current_group ++ [current_txn]) groups rest'
      else group_loop current_txn [current_txn] (groups ++ [current_group]) rest'
  end.

(** [Bundle.group_transactions]. *)
Definition group_transactions (b : Bundle) : list (list Transaction) :=
  let groups := [] in
  match transactions b with
  | [] => groups
  | last_txn :: rest =>
      let '(groups, current_group) := group_loop last_txn [last_txn] groups rest in
      match current_group with
      | [] => groups
      | _ :: _ => groups ++ [current_group]
      end
  end.

(** The maximal runs of consecutive transactions with the same address,
    by recursion on the list: what [group_transactions] is compared
    with. *)
Fixpoint runs (l : list Transaction) : list (list Transaction) :=
  match l with
  | [] => []
  | x :: l' =>
      match runs l' with
      | (y :: g) :: gs =>
          if bool_decide (address y = address x)
          then (x :: y :: g) :: gs
          else [x] :: (y :: g) :: gs
      | gs => [x] :: gs
      end
  end.

(** The setter of [Bundle.is_confirmed] on a bundle taken by value. *)
Definition Bundle_set_is_confirmed (new_is_confirmed : option bool) (b : Bundle)
    : Bundle :=
  {| transactions := map (set_is_confirmed new_is_confirmed) (transactions b);
     _is_confirmed := new_is_confirmed |}.

(** ** The setter on shared objects

    A bundle holds references to transaction objects; the same object may
    stand at several positions of a bundle or in several bundles. The
    store maps references to objects. *)
Definition ref : Type := positive.

Record BundleObject : Type := {
  transactions_refs : list ref;
  _is_confirmed_obj : option bool
}.

(** One turn of [for txn in self: txn.is_confirmed = new_is_confirmed]:
    the object is updated in the store and the assignment is logged. *)
Definition assign_is_confirmed (new_is_confirmed : option bool)
    (st : gmap ref Transaction * list ref) (r : ref)
    : gmap ref Transaction * list ref :=
  (alter (set_is_confirmed new_is_confirmed) r st.1, st.2 ++ [r]).

(** The setter of [Bundle.is_confirmed]: the new store, the bundle and the
    references assigned to, in the order of the assignments. *)
Definition is_confirmed_setter (new_is_confirmed : option bool)
    (store : gmap ref Transaction) (b : BundleObject)
    : gmap ref Transaction * BundleObject * list ref :=
  let b' := {| transactions_refs := transactions_refs b;
               _is_confirmed_obj := new_is_confirmed |} in
  let st := foldl (assign_is_confirmed new_is_confirmed) (store, []) (transactions_refs b') in
  (st.1, b', st.2).

(** ** Values of a JSON-compatible dict *)

(** The values that [as_json_compatible] puts in its dict: [None], a
    tryte string or an integer. *)
Inductive json_value : Type :=
  | JNull
  | JTrytes (s : TryteString)
  | JInt (n : Z).

Definition json_of_option (x : option TryteString) : json_value :=
  match x with
  | Some s => JTrytes s
  | None => JNull
  end.

(** ** Operations that depend on the absent collaborators *)

Section Embedding.

(** The truth value of a tryte string ([bool(x)], [x or y], [if x:],
    [not x]); [TryteString_bool] is the one of iota.types. *)
Variable truth : TryteString -> bool.

(** The sponge: [absorb] the trits of the body, then [squeeze] the
    243 trits of the hash. *)
Variable Curl : list Z -> list Z.

(** [TryteString.decode(errors)]: the decoded text, or the exception
    raised. *)
Variable decode : TryteString -> string -> result string.

(** The truth value of an optional tryte string: [None] is false. *)
Definition truth_opt (x : option TryteString) : bool :=
  match x with
  | Some s => truth s
  | None => false
  end.

(** [Transaction.legacy_tag]: [self._legacy_tag or self.tag]. *)
Definition legacy_tag (txn : Transaction) : TryteString :=
  match _legacy_tag txn with
  | Some l => if truth l then l else tag txn
  | None => tag txn
  end.

(** [Transaction.from_tryte_string]. The typed tryte strings ([Fragment],
    [Address], [Tag], [BundleHash], [TransactionHash], [Nonce]) hold the
    slice they are given: each slice has the length of its type. *)
Definition from_tryte_string (trytes : TryteString) (hash_ : option TryteString)
    : result Transaction :=
  tryte_string ← TransactionTrytes trytes;
  let hash_ :=
    if negb (truth_opt hash_)
    then Some (from_trits (Curl (as_trits tryte_string)))
    else hash_ in
  mret (Transaction___init__
    hash_
    (slice 0 2187 tryte_string)
    (slice 2187 2268 tryte_string)
    (int_from_trits (as_trits (slice 2268 2295 tryte_string)))
    (int_from_trits (as_trits (slice 2322 2331 tryte_string)))
    (int_from_trits (as_trits (slice 2331 2340 tryte_string)))
    (int_from_trits (as_trits (slice 2340 2349 tryte_string)))
    (slice 2349 2430 tryte_string)
    (slice 2430 2511 tryte_string)
    (slice 2511 2592 tryte_string)
    (slice 2592 2619 tryte_string)
    (int_from_trits (as_trits (slice 2619 2628 tryte_string)))
    (int_from_trits (as_trits (slice 2628 2637 tryte_string)))
    (int_from_trits (as_trits (slice 2637 2646 tryte_string)))
    (slice 2646 2673 tryte_string)
    (Some (slice 2295 2322 tryte_string))).

(** [Transaction.as_tryte_string]; the operands of [+] are evaluated
    from left to right. *)
Definition as_tryte_string (txn : Transaction) : result TryteString :=
  v ← value_as_trytes txn;
  ts ← timestamp_as_trytes txn;
  ci ← current_index_as_trytes txn;
  li ← last_index_as_trytes txn;
  at_ ← attachment_timestamp_as_trytes txn;
  atl ← attachment_timestamp_lower_bound_as_trytes txn;
  atu ← attachment_timestamp_upper_bound_as_trytes txn;
  TransactionTrytes
    (signature_message_fragment txn
     ++ Address_address (address txn)
     ++ v
     ++ legacy_tag txn
     ++ ts
     ++ ci
     ++ li
     ++ bundle_hash txn
     ++ trunk_transaction_hash txn
     ++ branch_transaction_hash txn
     ++ tag txn
     ++ at_
     ++ atl
     ++ atu
     ++ nonce txn).

(** [Transaction.get_signature_validation_trytes]. *)
Definition get_signature_validation_trytes (txn : Transaction) : result TryteString :=
  v ← value_as_trytes txn;
  ts ← timestamp_as_trytes txn;
  ci ← current_index_as_trytes txn;
  li ← last_index_as_trytes txn;
  mret (Address_address (address txn)
        ++ v
        ++ legacy_tag txn
        ++ ts
        ++ ci
        ++ li).

(** [Bundle.as_tryte_strings(head_to_tail=False)]. *)
Definition as_tryte_strings (b : Bundle) (head_to_tail : bool)
    : result (list TryteString) :=
  let transactions :=
    if head_to_tail then transactions b else reverse (transactions b) in
  mapM as_tryte_string transactions.

(** [except (TrytesDecodeError, UnicodeDecodeError)]. *)
Definition is_decode_error (e : exn) : bool :=
  match e with
  | TrytesDecodeError | UnicodeDecodeError => true
  | _ => false
  end.

(** [message_trytes = TryteString(b''); for txn in group: message_trytes
    += txn.signature_message_fragment]. *)
Definition message_trytes (group : list Transaction) : TryteString :=
  foldl (fun acc txn => acc ++ signature_message_fragment txn) [] group.

(** The loop of [get_messages] over the groups; [messages] is the list
    built so far. *)
Fixpoint get_messages_loop (errors decode_errors : string)
    (groups : list (list Transaction)) (messages : list string)
    : result (list string) :=
  match groups with
  | [] => Ok messages
  | group :: groups' =>
      match group with
      | [] => Raise IndexError
      | first :: _ =>
          if (value first <? 0)%Z then
            get_messages_loop errors decode_errors groups' messages
          else if truth (message_trytes group) then
            match decode (message_trytes group) decode_errors with
            | Ok m => get_messages_loop errors decode_errors groups' (messages ++ [m])
            | Raise e =>
                if is_decode_error e then
                  if negb (String.eqb errors "drop") then Raise e
                  else get_messages_loop errors decode_errors groups' messages
                else Raise e
            end
          else get_messages_loop errors decode_errors groups' messages
      end
  end.

(** [Bundle.get_messages(errors='drop')]. *)
Definition get_messages (b : Bundle) (errors : string) : result (list string) :=
  let decode_errors := if String.eqb errors "drop" then "strict"%string else errors in
  get_messages_loop errors decode_errors (group_transactions b) [].

(** [Transaction.as_json_compatible]: the dict with its sixteen keys; the
    value under [legacy_tag] is what the accessor returns. *)
Definition Transaction_as_json_compatible (txn : Transaction)
    : gmap string json_value :=
  list_to_map [
    ("hash_"%string, json_of_option (hash txn));
    ("signature_message_fragment"%string, JTrytes (signature_message_fragment txn));
    ("address"%string, JTrytes (address txn));
    ("value"%string, JInt (value txn));
    ("legacy_tag"%string, JTrytes (legacy_tag txn));
    ("timestamp"%string, JInt (timestamp txn));
    ("current_index"%string, JInt (current_index txn));
    ("last_index"%string, JInt (last_index txn));
    ("bundle_hash"%string, JTrytes (bundle_hash txn));
    ("trunk_transaction_hash"%string, JTrytes (trunk_transaction_hash txn));
    ("branch_transaction_hash"%string, JTrytes (branch_transaction_hash txn));
    ("tag"%string, JTrytes (tag txn));
    ("attachment_timestamp"%string, JInt (attachment_timestamp txn));
    ("attachment_timestamp_lower_bound"%string,
       JInt (attachment_timestamp_lower_bound txn));
    ("attachment_timestamp_upper_bound"%string,
       JInt (attachment_timestamp_upper_bound txn));
    ("nonce"%string, JTrytes (nonce txn))
  ].

(** [Bundle.as_json_compatible]: [[txn.as_json_compatible() for txn in
    self]]. *)
Definition Bundle_as_json_compatible (b : Bundle) : list (gmap string json_value) :=
  map Transaction_as_json_compatible (transactions b).

(** [Bundle.from_tryte_strings]: [cls(map(Transaction.from_tryte_string,
    trytes))]; the first tryte string that is refused ends the call. *)
Definition from_tryte_strings (trytes : list TryteString) : result Bundle :=
  txns ← mapM (fun t => from_tryte_string t None) trytes;
  mret (Bundle___init__ (Some txns)).

(** *** What [get_messages] is compared with *)

(** A group of inputs: its first transaction has a negative value. *)
Definition is_input (group : list Transaction) : bool :=
  match group with
  | first :: _ => (value first <? 0)%Z
  | [] => false
  end.

(** A group whose buffer is decoded: not a group of inputs, and the
    concatenated fragments are true as a tryte string. *)
Definition carries_message (group : list Transaction) : bool :=
  negb (is_input group) && truth (message_trytes group).

(** The messages of a list of decoding outcomes, in order: a raised
    decoding error is left out when [drop] is set, and any other raised
    exception ends the list. *)
Fixpoint collect (drop : bool) (outcomes : list (result string))
    : result (list string) :=
  match outcomes with
  | [] => Ok []
  | Ok m :: rest => ms ← collect drop rest; mret (m :: ms)
  | Raise e :: rest =>
      if is_decode_error e && drop then collect drop rest else Raise e
  end.

(** The message of an outcome, if it has one. *)
Definition message_of (outcome : result string) : option string :=
  match outcome with
  | Ok m => Some m
  | Raise _ => None
  end.

End Embedding.

(** ** Transactions that fit the wire format *)

(** The fields of the transaction have the lengths of the wire format and
    its numbers fit their fields. The typed tryte strings of iota.types
    have these lengths; an address may carry a checksum after its 81
    trytes. *)
Definition wire_sized (txn : Transaction) : Prop :=
  len (signature_message_fragment txn) = 2187%Z
  /\ (81 <= len (address txn))%Z
  /\ len (bundle_hash txn) = 81%Z
  /\ len (trunk_transaction_hash txn) = 81%Z
  /\ len (branch_transaction_hash txn) = 81%Z
  /\ len (tag txn) = 27%Z
  /\ len (nonce txn) = 27%Z
  /\ (forall l, _legacy_tag txn = Some l -> len l = 27%Z)
  /\ (Z.abs (value txn) <= max_int 81)%Z
  /\ (Z.abs (timestamp txn) <= max_int 27)%Z
  /\ (Z.abs (current_index txn) <= max_int 27)%Z
  /\ (Z.abs (last_index txn) <= max_int 27)%Z
  /\ (Z.abs (attachment_timestamp txn) <= max_int 27)%Z
  /\ (Z.abs (attachment_timestamp_lower_bound txn) <= max_int 27)%Z
  /\ (Z.abs (attachment_timestamp_upper_bound txn) <= max_int 27)%Z.

(** The current index that a body of 2673 trytes encodes. *)
Definition body_current_index (b : TryteString) : Z :=
  int_from_trits (as_trits (slice 2331 2340 b)).

(** A body that the round trip gives back: 2673 trytes whose legacy tag
    field is true as a tryte string or equals the tag field. *)
Definition round_trips (truth : TryteString -> bool) (b : TryteString) : Prop :=
  len b = 2673%Z
  /\ (truth (slice 2295 2322 b) = true
      \/ slice 2295 2322 b = slice 2592 2619 b).

(** ** Example data *)

(** A body whose current index is 1, all other fields being padding. *)
Definition body_index_1 : TryteString :=
  repeat t9 (Z.to_nat 2331) ++ [tA] ++ repeat t9 341.


(** A body of 2673 trytes: padding everywhere except the first tryte of
    the tag field, so the legacy tag field [2295:2322] is padding and the
    tag field [2592:2619] is not. *)
Definition body_tag_only : TryteString :=
  repeat t9 (Z.to_nat 2592) ++ [tA] ++ repeat t9 80.

(** A body whose legacy tag field and tag field both start with A. *)
Definition body_both_tags : TryteString :=
  repeat t9 (Z.to_nat 2295) ++ [tA] ++ repeat t9 296 ++ [tA] ++ repeat t9 80.

(** A transaction with the given address, value, index, tag, legacy tag
    and fragment; the other fields are padding or zero. *)
Definition example_txn (addr : TryteString) (v ci : Z) (tg : TryteString)
    (ltag : option TryteString) (fragment : TryteString) : Transaction :=
  Transaction___init__ None fragment addr v 0 ci 0 (repeat t9 81) (repeat t9 81)
    (repeat t9 81) tg 0 0 0 (repeat t9 27) ltag.

Definition address_A : TryteString := tA :: repeat t9 80.
Definition address_B : TryteString := tB :: repeat t9 80.
Definition tag_A : TryteString := tA :: repeat t9 26.
Definition tag_padding : TryteString := repeat t9 27.

(** A transaction whose legacy tag is set to padding and whose tag is
    not padding, as [from_tryte_string] builds it from [body_tag_only]. *)
Definition txn_padding_legacy_tag : Transaction :=
  example_txn address_A 0 0 tag_A (Some tag_padding) [].

(** The position of a tryte in the alphabet, 0 to 26. *)
Definition tryte_index (c : tryte) : Z :=
  let v := tryte_value c in if (v <? 0)%Z then (v + 27)%Z else v.

(** A decoder to run examples with, for text in ASCII: two trytes give the
    byte [first + 27 * second]. On a byte that does not exist (above 255)
    or is not ASCII, or on a single last tryte, strict raises, replace
    puts a question mark and any other policy leaves the place out. *)
Fixpoint ascii_decode_pairs (s : TryteString) (errors : string) : result string :=
  let invalid (e : exn) (rest : result string) : result string :=
    if String.eqb errors "strict" then Raise e
    else if String.eqb errors "replace"
         then (text ← rest; mret (String "?" text))
         else rest in
  match s with
  | [] => Ok EmptyString
  | [_] => invalid TrytesDecodeError (Ok EmptyString)
  | first :: second :: s' =>
      let byte := (tryte_index first + 27 * tryte_index second)%Z in
      if (255 <? byte)%Z then invalid TrytesDecodeError (ascii_decode_pairs s' errors)
      else if (127 <? byte)%Z then invalid UnicodeDecodeError (ascii_decode_pairs s' errors)
      else text ← ascii_decode_pairs s' errors;
           mret (String (ascii_of_nat (Z.to_nat byte)) text)
  end.

(** The trailing padding is not part of the text. *)
Fixpoint strip_padding (s : TryteString) : TryteString :=
  match s with
  | [] => []
  | c :: s' =>
      match strip_padding s' with
      | [] => if bool_decide (c = t9) then [] else [c]
      | rest => c :: rest
      end
  end.

Definition ascii_decode (s : TryteString) (errors : string) : result string :=
  ascii_decode_pairs (strip_padding s) errors.

(** HELLO in trytes, and a fragment that holds it. *)
Definition hello_trytes : TryteString := [tR; tB; tO; tB; tV; tB; tV; tB; tY; tB].
Definition fragment_hello : TryteString := hello_trytes ++ repeat t9 6.

(** A fragment that is no text: ZZ is the byte 728. *)
Definition fragment_invalid : TryteString := [tZ; tZ] ++ repeat t9 6.

(** A signature fragment of an input. *)
Definition fragment_signature : TryteString := [tS; tI; tG; t9; tN; tA; tT; tU].

Definition txn_hello : Transaction :=
  example_txn address_A 0 0 tag_A None fragment_hello.
Definition txn_input : Transaction :=
  example_txn address_B (-5) 1 tag_A None fragment_signature.
Definition txn_input_2 : Transaction :=
  example_txn address_B 0 2 tag_A None fragment_signature.
Definition txn_invalid : Transaction :=
  example_txn address_A 5 3 tag_A None fragment_invalid.
Definition txn_blank : Transaction :=
  example_txn address_B 0 4 tag_A None (repeat t9 8).

(** A bundle given out of order: a message to address A, a group of two
    inputs from address B, a fragment that is no text to address A and a
    blank fragment to address B. *)
Definition example_bundle : Bundle :=
  Bundle___init__ (Some [txn_invalid; txn_input; txn_blank; txn_hello; txn_input_2]).

(** The message and the inputs only. *)
Definition hello_bundle : Bundle :=
  Bundle___init__ (Some [txn_input_2; txn_input; txn_hello]).

(** Two transactions with the same index, and one before them. *)
Definition txn_first_1 : Transaction := example_txn address_A 7 1 tag_A None [].
Definition txn_second_1 : Transaction := example_txn address_B 8 1 tag_A None [].
Definition txn_0 : Transaction := example_txn address_A 9 0 tag_A None [].

(** A bundle without a message: two inputs and a blank fragment. *)
Definition inputs_bundle : Bundle :=
  Bundle___init__ (Some [txn_input; txn_blank; txn_input_2]).

(** A decoder that must not be called. *)
Definition failing_decode (s : TryteString) (errors : string) : result string :=
  Raise IndexError.

(** A transaction that fits the wire format: it sends 5 to address A at
    index 2 of 3, with a message and a legacy tag that is padding. *)
Definition wire_txn : Transaction :=
  Transaction___init__ None (hello_trytes ++ repeat t9 (Z.to_nat 2177)) address_A
    5 1500000000 2 3 (tB :: repeat t9 80) (tC :: repeat t9 80) (tD :: repeat t9 80)
    tag_A 1500000001 0 12 (tN :: repeat t9 26) (Some tag_padding).

(** Two transactions that differ in their legacy tag, one without and one
    with the tag as legacy tag. *)
Definition txn_no_legacy_tag : Transaction :=
  example_txn address_A 1 0 tag_A None fragment_hello.
Definition txn_same_legacy_tag : Transaction :=
  example_txn address_A 1 0 tag_A (Some tag_A) fragment_hello.

(** A store with two transaction objects, and a bundle that refers to the
    first one twice. *)
Definition example_store : gmap ref Transaction :=
  <[1%positive := txn_hello]> (<[2%positive := txn_input]> ∅).
Definition example_bundle_object : BundleObject :=
  {| transactions_refs := [1%positive; 1%positive]; _is_confirmed_obj := None |}.

(** A sponge to run examples with; the properties below do not depend on
    the hash. *)
Definition zero_sponge (trits : list Z) : list Z := repeat 0%Z 243.

(** ** The ternary codec *)

Lemma max_int_spec (pad : nat) : (2 * max_int pad + 1 = 3 ^ Z.of_nat pad)%Z.
Proof.
  unfold max_int.
  assert (H : ((3 ^ Z.of_nat pad) mod 2 = 1)%Z).
  { induction pad as [|n IH].
    - reflexivity.
    - rewrite Nat2Z.inj_succ, Z.pow_succ_r by lia.
      rewrite Z.mul_mod, IH by lia. reflexivity. }
  revert H. generalize (3 ^ Z.of_nat pad)%Z. intros x Hx. div_lia.
Qed.

Lemma max_int_succ (pad : nat) : (max_int (S pad) = 3 * max_int pad + 1)%Z.
Proof.
  pose proof (max_int_spec pad) as H1.
  pose proof (max_int_spec (S pad)) as H2.
  rewrite Nat2Z.inj_succ, Z.pow_succ_r in H2 by lia.
  lia.
Qed.

Lemma length_digits (v : Z) (pad : nat) : length (digits v pad) = pad.
Proof.
  revert v. induction pad as [|n IH]; intros v; simpl; [reflexivity|].
  now rewrite IH.
Qed.

Lemma digits_balanced (v : Z) (pad : nat) : Forall balanced (digits v pad).
Proof.
  revert v. induction pad as [|n IH]; intros v; simpl; constructor.
  - unfold balanced. pose proof (Z.mod_pos_bound (v + 1) 3 ltac:(lia)). lia.
  - apply IH.
Qed.

(** One digit: the value splits into its lowest balanced trit and three
    times the rest. *)
Lemma digit_split (v : Z) :
  let r := ((v + 1) mod 3 - 1)%Z in (v = r + 3 * ((v - r) / 3))%Z.
Proof.
  intros r. subst r. div_lia.
Qed.

(** Decoding the [pad] digits of a value that fits gives the value back
    (the contract of the ternary codec). *)
Lemma int_from_trits_digits (pad : nat) (v : Z) :
  (Z.abs v <= max_int pad)%Z -> int_from_trits (digits v pad) = v.
Proof.
  revert v. induction pad as [|n IH]; intros v Hv.
  - change (max_int 0) with 0%Z in Hv. simpl. lia.
  - simpl. pose proof (digit_split v) as Hs. simpl in Hs.
    pose proof (Z.mod_pos_bound (v + 1) 3 ltac:(lia)) as Hb.
    rewrite max_int_succ in Hv.
    rewrite IH; [lia|].
    generalize dependent (max_int n). intros m _ Hv. div_lia.
Qed.

(** The other direction: re-encoding the value of balanced trits at their
    own width gives the trits back. *)
Lemma int_from_trits_bound (l : list Z) :
  Forall balanced l -> (Z.abs (int_from_trits l) <= max_int (length l))%Z.
Proof.
  induction 1 as [|t l Ht _ IH].
  - reflexivity.
  - cbn [length int_from_trits]. rewrite max_int_succ. unfold balanced in Ht. lia.
Qed.

Lemma digits_int_from_trits (l : list Z) :
  Forall balanced l -> digits (int_from_trits l) (length l) = l.
Proof.
  induction 1 as [|t l Ht _ IH]; [reflexivity|].
  cbn [length int_from_trits digits]. unfold balanced in Ht.
  assert (Hr : ((t + 3 * int_from_trits l + 1) mod 3 - 1 = t)%Z).
  { replace (t + 3 * int_from_trits l + 1)%Z with ((t + 1) + int_from_trits l * 3)%Z by lia.
    rewrite Z.mod_add by lia. rewrite Z.mod_small by lia. lia. }
  rewrite Hr.
  replace (t + 3 * int_from_trits l - t)%Z with (int_from_trits l * 3)%Z by lia.
  rewrite Z.div_mul by lia. now rewrite IH.
Qed.

Lemma trits_from_int_int_from_trits (l : list Z) :
  Forall balanced l -> trits_from_int (int_from_trits l) (length l) = Ok l.
Proof.
  intros Hl. unfold trits_from_int.
  pose proof (int_from_trits_bound l Hl) as Hb.
  apply Z.leb_le in Hb. rewrite Hb. now rewrite digits_int_from_trits.
Qed.

(** ** Tryte strings *)

Lemma tryte_from_int_value (c : tryte) :
  from_trits (digits (tryte_value c) 3) = [c].
Proof. destruct c; reflexivity. Qed.

Lemma from_trits_app3 (a b c : Z) (rest : list Z) :
  from_trits ([a; b; c] ++ rest) = from_trits [a; b; c] ++ from_trits rest.
Proof. reflexivity. Qed.

Lemma from_trits_as_trits (s : TryteString) : from_trits (as_trits s) = s.
Proof.
  induction s as [|c s IH]; [reflexivity|].
  unfold as_trits in *. cbn [flat_map].
  pose proof (tryte_from_int_value c) as Hc.
  pose proof (length_digits (tryte_value c) 3) as Hlen.
  destruct (digits (tryte_value c) 3) as [|a [|b [|d [|? ?]]]]; try discriminate.
  rewrite from_trits_app3, Hc, IH. reflexivity.
Qed.

Lemma as_trits_balanced (s : TryteString) : Forall balanced (as_trits s).
Proof.
  induction s as [|c s IH]; [constructor|].
  unfold as_trits in *. cbn [flat_map].
  apply Forall_app. split; [apply digits_balanced | exact IH].
Qed.

Lemma length_as_trits (s : TryteString) : length (as_trits s) = 3 * length s.
Proof.
  induction s as [|c s IH]; [reflexivity|].
  unfold as_trits in *. cbn [flat_map].
  rewrite length_app, length_digits, IH. simpl. lia.
Qed.

(** A numeric field read from [n] trytes and written back at [3 * n]
    trits is the same [n] trytes. *)
Lemma int_as_trytes_int_from_trits (s : TryteString) (n : nat) :
  length s = n ->
  int_as_trytes (int_from_trits (as_trits s)) (3 * n) = Ok s.
Proof.
  intros Hn. unfold int_as_trytes.
  rewrite <- Hn, <- length_as_trits.
  rewrite trits_from_int_int_from_trits by apply as_trits_balanced.
  cbn [mbind mret result_bind result_ret]. now rewrite from_trits_as_trits.
Qed.

Lemma balanced_cases (t : Z) : balanced t -> t = (-1)%Z \/ t = 0%Z \/ t = 1%Z.
Proof. unfold balanced. lia. Qed.

Lemma as_trits_from_trits_3 (a b c : Z) :
  balanced a -> balanced b -> balanced c ->
  as_trits (from_trits [a; b; c]) = [a; b; c].
Proof.
  intros Ha Hb Hc.
  destruct (balanced_cases a Ha) as [-> | [-> | ->]];
    destruct (balanced_cases b Hb) as [-> | [-> | ->]];
    destruct (balanced_cases c Hc) as [-> | [-> | ->]]; reflexivity.
Qed.

Lemma as_trits_from_trits (n : nat) (l : list Z) :
  Forall balanced l -> length l = 3 * n ->
  as_trits (from_trits l) = l /\ length (from_trits l) = n.
Proof.
  revert l. induction n as [|n IH]; intros l Hl Hlen.
  - destruct l; [split; reflexivity | discriminate].
  - destruct l as [|a [|b [|c rest]]]; simpl in Hlen; try lia.
    inversion Hl as [|? ? Ha Hl1]; subst.
    inversion Hl1 as [|? ? Hb Hl2]; subst.
    inversion Hl2 as [|? ? Hc Hrest]; subst.
    destruct (IH rest Hrest ltac:(lia)) as [IH1 IH2].
    change (from_trits (a :: b :: c :: rest))
      with (from_trits [a; b; c] ++ from_trits rest).
    split.
    + unfold as_trits. rewrite flat_map_app.
      fold (as_trits (from_trits [a; b; c])). fold (as_trits (from_trits rest)).
      rewrite as_trits_from_trits_3, IH1 by assumption. reflexivity.
    + rewrite length_app, IH2. reflexivity.
Qed.

(** A value that fits in [3 * n] trits is written as [n] trytes that read
    back as the value. *)
Lemma int_as_trytes_fits (v : Z) (n : nat) :
  (Z.abs v <= max_int (3 * n))%Z ->
  exists s, int_as_trytes v (3 * n) = Ok s /\ length s = n
            /\ int_from_trits (as_trits s) = v.
Proof.
  intros Hv. exists (from_trits (digits v (3 * n))).
  unfold int_as_trytes, trits_from_int.
  apply Z.leb_le in Hv as Hv'. rewrite Hv'.
  cbn [mbind mret result_bind result_ret].
  destruct (as_trits_from_trits n (digits v (3 * n))) as [H1 H2].
  - apply digits_balanced.
  - apply length_digits.
  - repeat split; [exact H2|].
    rewrite H1. now apply int_from_trits_digits.
Qed.

(** A value that does not fit is refused. *)
Lemma int_as_trytes_range (v : Z) (pad : nat) :
  (max_int pad < Z.abs v)%Z -> int_as_trytes v pad = Raise RangeError.
Proof.
  intros Hv. unfold int_as_trytes, trits_from_int.
  apply Z.leb_gt in Hv. now rewrite Hv.
Qed.

(** ** Slices *)

Lemma len_app (s1 s2 : TryteString) : (len (s1 ++ s2) = len s1 + len s2)%Z.
Proof. unfold len. rewrite length_app. lia. Qed.

Lemma len_slice (i j : Z) (s : TryteString) :
  (0 <= i <= j)%Z -> (j <= len s)%Z -> (len (slice i j s) = j - i)%Z.
Proof.
  unfold len, slice. intros Hij Hj. rewrite length_take, length_drop. lia.
Qed.

Lemma slice_app (i j k : Z) (s : TryteString) :
  (0 <= i <= j)%Z -> (j <= k)%Z -> slice i j s ++ slice j k s = slice i k s.
Proof.
  intros Hij Hjk. unfold slice.
  replace (drop (Z.to_nat j) s)
    with (drop (Z.to_nat (j - i)) (drop (Z.to_nat i) s))
    by (rewrite drop_drop; f_equal; lia).
  rewrite take_take_drop. f_equal. lia.
Qed.

Lemma slice_all (s : TryteString) : slice 0 (len s) s = s.
Proof.
  unfold slice, len. rewrite Z.sub_0_r, Nat2Z.id. apply firstn_all.
Qed.

Lemma slice_whole (n : Z) (s : TryteString) : len s = n -> slice 0 n s = s.
Proof. intros <-. apply slice_all. Qed.

Lemma slice_three (i j : Z) (s : TryteString) :
  (0 <= i <= j)%Z -> (j <= len s)%Z ->
  s = slice 0 i s ++ slice i j s ++ slice j (len s) s.
Proof.
  intros Hij Hj. rewrite !slice_app by lia. symmetry. apply slice_all.
Qed.

Lemma field_27_trytes (s : TryteString) :
  len s = 27%Z -> int_as_trytes (int_from_trits (as_trits s)) 81 = Ok s.
Proof.
  intros H. apply (int_as_trytes_int_from_trits s 27). unfold len in H. lia.
Qed.

Lemma field_9_trytes (s : TryteString) :
  len s = 9%Z -> int_as_trytes (int_from_trits (as_trits s)) 27 = Ok s.
Proof.
  intros H. apply (int_as_trytes_int_from_trits s 9). unfold len in H. lia.
Qed.

(** ** The transaction codec *)

Section Codec.

Variable truth : TryteString -> bool.
Variable Curl : list Z -> list Z.

(** Decoding a body of 2673 trytes succeeds and cuts the body at the
    offsets of the wire format. *)
Lemma from_tryte_string_fields (b : TryteString) (hash_ : option TryteString) :
  len b = 2673%Z ->
  exists txn,
    from_tryte_string truth Curl b hash_ = Ok txn
    /\ signature_message_fragment txn = slice 0 2187 b
    /\ address txn = slice 2187 2268 b
    /\ value txn = int_from_trits (as_trits (slice 2268 2295 b))
    /\ _legacy_tag txn = Some (slice 2295 2322 b)
    /\ timestamp txn = int_from_trits (as_trits (slice 2322 2331 b))
    /\ current_index txn = int_from_trits (as_trits (slice 2331 2340 b))
    /\ last_index txn = int_from_trits (as_trits (slice 2340 2349 b))
    /\ bundle_hash txn = slice 2349 2430 b
    /\ trunk_transaction_hash txn = slice 2430 2511 b
    /\ branch_transaction_hash txn = slice 2511 2592 b
    /\ tag txn = slice 2592 2619 b
    /\ attachment_timestamp txn = int_from_trits (as_trits (slice 2619 2628 b))
    /\ attachment_timestamp_lower_bound txn
       = int_from_trits (as_trits (slice 2628 2637 b))
    /\ attachment_timestamp_upper_bound txn
       = int_from_trits (as_trits (slice 2637 2646 b))
    /\ nonce txn = slice 2646 2673 b
    /\ is_confirmed txn = None.
Proof.
  intros Hlen.
  unfold from_tryte_string, TransactionTrytes.
  rewrite Hlen, Z.eqb_refl. cbn [mbind mret result_bind result_ret].
  eexists. split; [reflexivity|].
  repeat split.
Qed.

(** The accessor on a decoded transaction. *)
Lemma legacy_tag_decoded (txn : Transaction) (l t : TryteString) :
  _legacy_tag txn = Some l -> tag txn = t ->
  legacy_tag truth txn = if truth l then l else t.
Proof. intros Hl Ht. unfold legacy_tag. now rewrite Hl, Ht. Qed.

(** The round trip as the code has it. Decoding a body of 2673 trytes and
    encoding the transaction again succeeds, and gives the body with the legacy
    tag field [2295:2322] replaced by what the accessor [legacy_tag]
    returns: the field itself when it is true as a tryte string, the tag
    field [2592:2619] otherwise. So the round trip gives the body back
    exactly when the legacy tag field is true or equals the tag field. *)
Theorem as_tryte_string_from_tryte_string (b : TryteString) (hash_ : option TryteString) :
  len b = 2673%Z ->
  exists txn b',
    from_tryte_string truth Curl b hash_ = Ok txn
    /\ as_tryte_string truth txn = Ok b'
    /\ b' = slice 0 2295 b
            ++ (if truth (slice 2295 2322 b) then slice 2295 2322 b
                else slice 2592 2619 b)
            ++ slice 2322 2673 b
    /\ (b' = b <->
        truth (slice 2295 2322 b) = true
        \/ slice 2295 2322 b = slice 2592 2619 b).
Proof.
  intros Hlen.
  destruct (from_tryte_string_fields b hash_ Hlen)
    as (txn & Hdec & Hf & Ha & Hv & Hl & Hts & Hci & Hli & Hbh & Htr & Hbr & Htag
        & Hat & Hatl & Hatu & Hn & _).
  pose proof (legacy_tag_decoded txn _ _ Hl Htag) as Hlt.
  set (X := if truth (slice 2295 2322 b) then slice 2295 2322 b
            else slice 2592 2619 b) in *.
  assert (HX : len X = 27%Z).
  { subst X. destruct (truth (slice 2295 2322 b)); rewrite len_slice by lia; lia. }
  exists txn, (slice 0 2295 b ++ X ++ slice 2322 2673 b).
  split; [exact Hdec|]. split; [|split; [reflexivity|]].
  - unfold as_tryte_string, value_as_trytes, timestamp_as_trytes,
      current_index_as_trytes, last_index_as_trytes,
      attachment_timestamp_as_trytes,
      attachment_timestamp_lower_bound_as_trytes,
      attachment_timestamp_upper_bound_as_trytes, Address_address.
    rewrite Hf, Ha, Hv, Hlt, Hts, Hci, Hli, Hbh, Htr, Hbr, Htag, Hat, Hatl, Hatu, Hn.
    rewrite field_27_trytes by (rewrite len_slice by lia; lia).
    rewrite !field_9_trytes by (rewrite len_slice by lia; lia).
    cbn [mbind mret result_bind result_ret].
    rewrite (slice_whole 81 (slice 2187 2268 b)) by (rewrite len_slice by lia; lia).
    rewrite !slice_app by lia.
    rewrite (app_assoc (slice 2187 2268 b)), (app_assoc (slice 0 2187 b)).
    rewrite !slice_app by lia.
    unfold TransactionTrytes.
    rewrite !len_app, HX, !len_slice by lia.
    reflexivity.
  - pose proof (slice_three 2295 2322 b ltac:(lia) ltac:(lia)) as Hb.
    rewrite Hlen in Hb.
    generalize dependent (slice 0 2295 b). intros A.
    generalize dependent (slice 2322 2673 b). intros R Hb.
    split.
    + intros Heq.
      assert (Heq' : A ++ X ++ R = A ++ slice 2295 2322 b ++ R)
        by (rewrite <- Hb; exact Heq).
      apply app_inv_head, app_inv_tail in Heq'.
      subst X. destruct (truth (slice 2295 2322 b)); [left; reflexivity|].
      right. symmetry. exact Heq'.
    + intros Hc. transitivity (A ++ slice 2295 2322 b ++ R); [|symmetry; exact Hb].
      do 2 f_equal. subst X.
      destruct (truth (slice 2295 2322 b)); [reflexivity|].
      destruct Hc as [Hc | Hc]; [discriminate | symmetry; exact Hc].
Qed.

(** The accessor as the code has it. [legacy_tag] returns the legacy
    tag that was set when it is true as a tryte string, and the tag in the
    two other cases: no legacy tag set, or one set that is false as a
    tryte string. A transaction constructed without a legacy tag reads
    its tag. *)
Theorem legacy_tag_or_tag (txn : Transaction) :
  (forall l, _legacy_tag txn = Some l -> truth l = true ->
             legacy_tag truth txn = l)
  /\ (forall l, _legacy_tag txn = Some l -> truth l = false ->
                legacy_tag truth txn = tag txn)
  /\ (_legacy_tag txn = None -> legacy_tag truth txn = tag txn)
  /\ (forall hash_ fragment addr v ts ci li bh trunk branch tg at_ atl atu nc,
        txn = Transaction___init__ hash_ fragment addr v ts ci li bh trunk
                branch tg at_ atl atu nc None ->
        legacy_tag truth txn = tg).
Proof.
  unfold legacy_tag. repeat split.
  - intros l -> ->. reflexivity.
  - intros l -> ->. reflexivity.
  - intros ->. reflexivity.
  - intros; subst txn; reflexivity.
Qed.

(** The payload as the code has it. When the four numbers fit their
    fields, the payload is the address (the 81 trytes without checksum),
    the value as 27 trytes, what the accessor [legacy_tag] returns, and
    the timestamp, the current index and the last index as 9 trytes each,
    in this order and nothing else. Each numeric part reads back as the
    number it encodes. *)
Theorem get_signature_validation_trytes_parts (txn : Transaction) :
  (Z.abs (value txn) <= max_int 81)%Z ->
  (Z.abs (timestamp txn) <= max_int 27)%Z ->
  (Z.abs (current_index txn) <= max_int 27)%Z ->
  (Z.abs (last_index txn) <= max_int 27)%Z ->
  exists v ts ci li,
    get_signature_validation_trytes truth txn
    = Ok (Address_address (address txn) ++ v ++ legacy_tag truth txn
          ++ ts ++ ci ++ li)
    /\ (length v = 27 /\ int_from_trits (as_trits v) = value txn)
    /\ (length ts = 9 /\ int_from_trits (as_trits ts) = timestamp txn)
    /\ (length ci = 9 /\ int_from_trits (as_trits ci) = current_index txn)
    /\ (length li = 9 /\ int_from_trits (as_trits li) = last_index txn).
Proof.
  intros Hv Hts Hci Hli.
  destruct (int_as_trytes_fits (value txn) 27 Hv) as (v & Ev & Lv & Dv).
  destruct (int_as_trytes_fits (timestamp txn) 9 Hts) as (ts & Ets & Lts & Dts).
  destruct (int_as_trytes_fits (current_index txn) 9 Hci) as (ci & Eci & Lci & Dci).
  destruct (int_as_trytes_fits (last_index txn) 9 Hli) as (li & Eli & Lli & Dli).
  exists v, ts, ci, li.
  unfold get_signature_validation_trytes, value_as_trytes, timestamp_as_trytes,
    current_index_as_trytes, last_index_as_trytes.
  change (int_as_trytes (value txn) 81 = Ok v) in Ev.
  change (int_as_trytes (timestamp txn) 27 = Ok ts) in Ets.
  change (int_as_trytes (current_index txn) 27 = Ok ci) in Eci.
  change (int_as_trytes (last_index txn) 27 = Ok li) in Eli.
  rewrite Ev, Ets, Eci, Eli.
  repeat split; assumption.
Qed.

End Codec.

(** [TryteString_bool] is false exactly on padding. *)
Lemma TryteString_bool_false (s : TryteString) :
  TryteString_bool s = false <-> Forall (fun c => c = t9) s.
Proof.
  unfold TryteString_bool. induction s as [|c s IH]; simpl.
  - split; [constructor | reflexivity].
  - rewrite orb_false_iff, IH, negb_false_iff, bool_decide_eq_true.
    split.
    + intros [H1 H2]. now constructor.
    + intros H. inversion H; subst. now split.
Qed.

(** The round trip holds on a body whose legacy tag field is not padding. *)
Lemma as_tryte_string_from_tryte_string_witness :
  len body_both_tags = 2673%Z
  /\ (txn ← from_tryte_string TryteString_bool zero_sponge body_both_tags None;
      as_tryte_string TryteString_bool txn) = Ok body_both_tags.
Proof.
  split; [reflexivity|].
  destruct (as_tryte_string_from_tryte_string TryteString_bool zero_sponge
              body_both_tags None eq_refl) as (txn & b' & H1 & H2 & _ & H4).
  rewrite H1. cbn [mbind result_bind]. rewrite H2. f_equal.
  apply H4. left. reflexivity.
Defined.

(** C1 (the round trip [from_tryte_string(b).as_tryte_string() == b]) does
    not hold on the code for a body whose legacy tag field is padding and
    whose tag field is not: the body is decoded, and the encoding of the
    decoded transaction carries the tag in both fields. *)
Lemma round_trip_loses_padding_legacy_tag :
  len body_tag_only = 2673%Z
  /\ (txn ← from_tryte_string TryteString_bool zero_sponge body_tag_only None;
      as_tryte_string TryteString_bool txn) = Ok body_both_tags
  /\ body_both_tags <> body_tag_only.
Proof.
  split; [reflexivity|]. split.
  - vm_compute. reflexivity.
  - intros H. apply (f_equal (slice 2295 2296)) in H. vm_compute in H.
    discriminate H.
Qed.

(** C9 (the accessor returns the legacy tag that was set) does not hold on
    the code for a legacy tag that is set and is padding: the accessor
    returns the tag, which differs from the legacy tag that was set. *)
Lemma legacy_tag_set_to_padding :
  _legacy_tag txn_padding_legacy_tag = Some tag_padding
  /\ legacy_tag TryteString_bool txn_padding_legacy_tag = tag_A
  /\ legacy_tag TryteString_bool txn_padding_legacy_tag <> tag_padding.
Proof.
  split; [reflexivity|]. split; [reflexivity|].
  intros H. vm_compute in H. discriminate H.
Qed.

(** The payload of a transaction that spends 5 at index 1. *)
Lemma get_signature_validation_trytes_parts_witness :
  exists v ts ci li,
    get_signature_validation_trytes TryteString_bool
      (example_txn address_A (-5) 1 tag_A None [])
    = Ok (address_A ++ v ++ tag_A ++ ts ++ ci ++ li)
    /\ (length v = 27 /\ int_from_trits (as_trits v) = (-5)%Z)
    /\ (length ts = 9 /\ int_from_trits (as_trits ts) = 0%Z)
    /\ (length ci = 9 /\ int_from_trits (as_trits ci) = 1%Z)
    /\ (length li = 9 /\ int_from_trits (as_trits li) = 0%Z).
Proof.
  apply (get_signature_validation_trytes_parts TryteString_bool
           (example_txn address_A (-5) 1 tag_A None []));
    vm_compute; discriminate.
Defined.

(** C4 (the payload holds the legacy tag between the value and the
    timestamp) does not hold on the code for the transaction decoded from
    a body whose legacy tag field is padding and whose tag field is not.
    The legacy tag of the transaction is set to the padding of the body,
    and the payload of 162 trytes carries the tag in its place
    [108:135]: it is padding, then the tag, then padding, where the
    parts that the claim names give padding throughout. *)
Lemma signature_validation_payload_carries_tag :
  exists txn payload,
    from_tryte_string TryteString_bool zero_sponge body_tag_only None = Ok txn
    /\ address txn = repeat t9 81
    /\ value txn = 0%Z /\ timestamp txn = 0%Z
    /\ current_index txn = 0%Z /\ last_index txn = 0%Z
    /\ _legacy_tag txn = Some tag_padding
    /\ tag txn = tag_A
    /\ get_signature_validation_trytes TryteString_bool txn = Ok payload
    /\ payload = repeat t9 108 ++ tag_A ++ repeat t9 27
    /\ slice 108 135 payload = tag_A
    /\ payload <> repeat t9 81 ++ repeat t9 27 ++ tag_padding ++ repeat t9 9
                  ++ repeat t9 9 ++ repeat t9 9.
Proof.
  destruct (from_tryte_string TryteString_bool zero_sponge body_tag_only None)
    as [txn|e] eqn:Hdec; [|vm_compute in Hdec; discriminate Hdec].
  exists txn, (repeat t9 108 ++ tag_A ++ repeat t9 27).
  vm_compute in Hdec. injection Hdec as <-.
  repeat split; try (vm_compute; reflexivity).
  intros H. apply (f_equal (slice 108 109)) in H. vm_compute in H. discriminate H.
Qed.

(** ** Construction of a bundle: the stable sort *)

Section Sorting.

Context {A : Type} (key : A -> Z).

Lemma key_le_trans : Transitive (key_le key).
Proof. unfold key_le. intros x y z. lia. Qed.

Lemma insert_by_perm (x : A) (l : list A) : Permutation (insert_by key x l) (x :: l).
Proof.
  induction l as [|y l IH]; simpl; [reflexivity|].
  destruct (key x <=? key y)%Z; [reflexivity|].
  rewrite IH. apply perm_swap.
Qed.

Lemma sorted_perm (l : list A) : Permutation (sorted key l) l.
Proof.
  induction l as [|x l IH]; simpl; [reflexivity|].
  rewrite insert_by_perm. now constructor.
Qed.

Lemma insert_by_HdRel (x a : A) (l : list A) :
  key_le key a x -> HdRel (key_le key) a l -> HdRel (key_le key) a (insert_by key x l).
Proof.
  intros Hax Hal. destruct l as [|y l]; simpl; [now constructor|].
  destruct (key x <=? key y)%Z; constructor; [exact Hax|].
  now inversion Hal.
Qed.

Lemma insert_by_Sorted (x : A) (l : list A) :
  Sorted (key_le key) l -> Sorted (key_le key) (insert_by key x l).
Proof.
  induction 1 as [|y l Hl IH Hy]; simpl; [repeat constructor|].
  destruct (key x <=? key y)%Z eqn:E.
  - apply Z.leb_le in E. repeat constructor; assumption.
  - apply Z.leb_gt in E. constructor; [exact IH|].
    apply insert_by_HdRel; [unfold key_le; lia | exact Hy].
Qed.

Lemma sorted_Sorted (l : list A) : Sorted (key_le key) (sorted key l).
Proof.
  induction l as [|x l IH]; simpl; [constructor|].
  now apply insert_by_Sorted.
Qed.

(** An inserted element goes before the elements with its key, and the
    elements of any other key are left as they are. *)
Lemma filter_insert_by (k : Z) (x : A) (l : list A) :
  filter (fun y => key y = k) (insert_by key x l)
  = filter (fun y => key y = k) (x :: l).
Proof.
  induction l as [|y l IH]; simpl; [reflexivity|].
  destruct (key x <=? key y)%Z eqn:E; [reflexivity|].
  apply Z.leb_gt in E.
  rewrite (filter_cons _ y (insert_by key x l)), IH.
  rewrite !filter_cons.
  repeat case_decide; try reflexivity; lia.
Qed.

Lemma filter_sorted (k : Z) (l : list A) :
  filter (fun y => key y = k) (sorted key l) = filter (fun y => key y = k) l.
Proof.
  induction l as [|x l IH]; simpl; [reflexivity|].
  rewrite filter_insert_by, !filter_cons, IH. reflexivity.
Qed.

(** A list in ascending key order is determined by its sublists of equal
    keys: the result of a stable sort does not depend on how the sort
    works. *)
Lemma stable_sort_unique (l1 l2 : list A) :
  StronglySorted (key_le key) l1 -> StronglySorted (key_le key) l2 ->
  (forall k, filter (fun y => key y = k) l1 = filter (fun y => key y = k) l2) ->
  l1 = l2.
Proof.
  intros H1. revert l2.
  induction H1 as [|x l1 Hs1 IH Hx]; intros l2 H2 Hf.
  - destruct l2 as [|y l2]; [reflexivity|].
    specialize (Hf (key y)). rewrite filter_cons in Hf.
    rewrite decide_True in Hf by reflexivity. discriminate Hf.
  - destruct H2 as [|y l2 Hs2 Hy].
    + specialize (Hf (key x)). rewrite filter_cons in Hf.
      rewrite decide_True in Hf by reflexivity. discriminate Hf.
    + assert (Hxy : key x = key y).
      { assert (Hin1 : x ∈ y :: l2).
        { apply (list_elem_of_filter (fun z => key z = key x) _ x).
          rewrite <- Hf, filter_cons, decide_True by reflexivity. left. }
        assert (Hin2 : y ∈ x :: l1).
        { apply (list_elem_of_filter (fun z => key z = key y) _ y).
          rewrite Hf, filter_cons, decide_True by reflexivity. left. }
        rewrite Forall_forall in Hx, Hy. unfold key_le in Hx, Hy.
        apply elem_of_cons in Hin1 as [-> | Hin1]; [reflexivity|].
        apply elem_of_cons in Hin2 as [-> | Hin2]; [reflexivity|].
        specialize (Hx _ Hin2). specialize (Hy _ Hin1). lia. }
      pose proof (Hf (key x)) as Hk.
      rewrite !filter_cons in Hk.
      rewrite decide_True in Hk by reflexivity.
      rewrite decide_True in Hk by (symmetry; exact Hxy).
      injection Hk as -> Hk.
      f_equal. apply IH; [exact Hs2|].
      intros k. specialize (Hf k). rewrite !filter_cons in Hf.
      destruct (decide (key y = k)); [now injection Hf | exact Hf].
Qed.

End Sorting.

(** ** Bundles *)

(** The constructor sorts a list that is given. *)
Lemma Bundle_init_transactions (l : list Transaction) :
  transactions (Bundle___init__ (Some l)) = sorted current_index l.
Proof. destruct l; reflexivity. Qed.

Lemma sorted_StronglySorted {A : Type} (key : A -> Z) (l : list A) :
  StronglySorted (key_le key) (sorted key l).
Proof.
  apply (@Sorted_StronglySorted _ _ (key_le_trans key)), sorted_Sorted.
Qed.

(** [sorted] gives the only arrangement that is ascending and stable. *)
Lemma sorted_characterised {A : Type} (key : A -> Z) (l l' : list A) :
  StronglySorted (key_le key) l' ->
  (forall k, filter (fun y => key y = k) l' = filter (fun y => key y = k) l) ->
  l' = sorted key l.
Proof.
  intros Hs Hf. apply (stable_sort_unique key); [exact Hs | apply sorted_StronglySorted |].
  intros k. rewrite filter_sorted. apply Hf.
Qed.

(** C3. A bundle constructed from any list of transactions holds them in
    ascending order of [current_index], and the transactions of any one
    [current_index] are in their input order; the bundle holds the input
    transactions and no others, and every permutation of the input gives
    the same sequence of indices. *)
Theorem Bundle_init_sorted_stable (txns : list Transaction) :
  let b := Bundle___init__ (Some txns) in
  StronglySorted (key_le current_index) (transactions b)
  /\ Permutation (transactions b) txns
  /\ (forall k, filter (fun t => current_index t = k) (transactions b)
                = filter (fun t => current_index t = k) txns)
  /\ (forall txns', Permutation txns txns' ->
        map current_index (transactions (Bundle___init__ (Some txns')))
        = map current_index (transactions b)).
Proof.
  cbv zeta. rewrite Bundle_init_transactions.
  split; [|split; [|split]].
  - apply sorted_StronglySorted.
  - apply sorted_perm.
  - intros k. apply filter_sorted.
  - intros txns' Hp. rewrite Bundle_init_transactions.
    apply (Sorted_unique Z.le).
    + apply Sorted_fmap with (R1 := key_le current_index);
        [auto | apply sorted_Sorted].
    + apply Sorted_fmap with (R1 := key_le current_index);
        [auto | apply sorted_Sorted].
    + apply fmap_Permutation.
      rewrite !sorted_perm. symmetry. exact Hp.
Qed.

(** A bundle constructed without transactions, or from an empty list, is
    empty. *)
Lemma Bundle_init_empty :
  transactions (Bundle___init__ None) = []
  /\ transactions (Bundle___init__ (Some [])) = [].
Proof. split; reflexivity. Qed.

(** *** Grouping by address *)

Lemma runs_cons_inv (x : Transaction) (l : list Transaction) :
  exists g rs, runs (x :: l) = (x :: g) :: rs.
Proof.
  simpl. destruct (runs l) as [|[|y g] gs]; [eauto | eauto |].
  case_bool_decide; eauto.
Qed.

Lemma runs_step (a : Transaction) (l : list Transaction) (y : Transaction)
    (g : list Transaction) (gs : list (list Transaction)) :
  runs l = (y :: g) :: gs ->
  runs (a :: l) = if bool_decide (address y = address a)
                  then (a :: y :: g) :: gs
                  else [a] :: (y :: g) :: gs.
Proof. intros H. simpl. now rewrite H. Qed.

(** The loop of [group_transactions] builds the runs: with the group in
    progress ending in [last_txn], the groups it ends with are the groups
    it started with, then the runs of the rest, the first run joined to
    the group in progress. *)
Lemma group_loop_runs (rest : list Transaction) :
  forall (last_txn : Transaction) (c0 : list Transaction)
         (groups : list (list Transaction)),
  exists g rs gs' c',
    runs (last_txn :: rest) = (last_txn :: g) :: rs
    /\ group_loop last_txn (c0 ++ [last_txn]) groups rest = (gs', c')
    /\ gs' ++ [c'] = groups ++ (c0 ++ last_txn :: g) :: rs
    /\ c' <> [].
Proof.
  induction rest as [|x rest IH]; intros last_txn c0 groups.
  - exists [], [], groups, (c0 ++ [last_txn]). simpl.
    repeat split. intros H. now apply app_nil in H as [_ H].
  - cbn [group_loop].
    destruct (runs_cons_inv x rest) as (g' & rs' & Hruns).
    case_bool_decide as Haddr.
    + destruct (IH x (c0 ++ [last_txn]) groups) as (g & rs & gs' & c' & H1 & H2 & H3 & H4).
      rewrite Hruns in H1. injection H1 as <- <-.
      exists (x :: g'), rs', gs', c'.
      split; [|split; [exact H2|split; [|exact H4]]].
      * rewrite (runs_step last_txn _ _ _ _ Hruns).
        rewrite bool_decide_eq_true_2 by exact Haddr. reflexivity.
      * rewrite H3, <- app_assoc. reflexivity.
    + destruct (IH x [] (groups ++ [c0 ++ [last_txn]])) as (g & rs & gs' & c' & H1 & H2 & H3 & H4).
      rewrite Hruns in H1. injection H1 as <- <-.
      exists [], ((x :: g') :: rs'), gs', c'.
      split; [|split; [exact H2|split; [|exact H4]]].
      * rewrite (runs_step last_txn _ _ _ _ Hruns).
        rewrite bool_decide_eq_false_2 by exact Haddr. reflexivity.
      * rewrite H3, <- app_assoc. reflexivity.
Qed.

Lemma group_transactions_runs (b : Bundle) :
  group_transactions b = runs (transactions b).
Proof.
  unfold group_transactions. destruct (transactions b) as [|last_txn rest]; [reflexivity|].
  destruct (group_loop_runs rest last_txn [] []) as (g & rs & gs' & c' & H1 & H2 & H3 & H4).
  change ([] ++ [last_txn]) with [last_txn] in H2. rewrite H2, H1.
  destruct c' as [|y c']; [contradiction|]. exact H3.
Qed.

Lemma concat_runs (l : list Transaction) : concat (runs l) = l.
Proof.
  induction l as [|x l IH]; [reflexivity|]. simpl.
  destruct (runs l) as [|[|y g] gs]; simpl in *; subst; try reflexivity.
  case_bool_decide; reflexivity.
Qed.

Lemma runs_uniform (l : list Transaction) :
  Forall (fun g => g <> []
                   /\ forall x y, x ∈ g -> y ∈ g -> address x = address y)
         (runs l).
Proof.
  induction l as [|x l IH]; [constructor|]. simpl.
  assert (Hone : forall z : Transaction,
             [z] <> [] /\ forall a b, a ∈ [z] -> b ∈ [z] -> address a = address b).
  { intros z. split; [discriminate|].
    intros a b Ha Hb. apply list_elem_of_singleton in Ha, Hb. now subst. }
  destruct (runs l) as [|[|y g] gs]; [constructor; [apply Hone | exact IH].. |].
  inversion IH as [|? ? [_ Hg] Hgs]; subst.
  case_bool_decide as Haddr.
  - constructor; [|exact Hgs]. split; [discriminate|].
    assert (Hy : forall a, a ∈ x :: y :: g -> address a = address y).
    { intros a Ha. apply elem_of_cons in Ha as [-> | Ha]; [now symmetry|].
      apply Hg; [exact Ha | left]. }
    intros a b Ha Hb. now rewrite (Hy a Ha), (Hy b Hb).
  - constructor; [apply Hone | exact IH].
Qed.

Lemma runs_boundaries (l : list Transaction) :
  forall G1 g1 g2 G2 x y,
    runs l = G1 ++ g1 :: g2 :: G2 ->
    last g1 = Some x -> head g2 = Some y -> address x <> address y.
Proof.
  induction l as [|z l IH]; intros G1 g1 g2 G2 x y Hr Hx Hy.
  - destruct G1; discriminate Hr.
  - simpl in Hr. destruct (runs l) as [|[|w g] gs] eqn:El.
    + destruct G1 as [|? [|? ?]]; discriminate Hr.
    + destruct G1 as [|h G1]; simplify_eq/=.
      eapply IH; [eassumption | exact Hx | exact Hy].
    + case_bool_decide as Haddr.
      * destruct G1 as [|h G1]; simplify_eq/=.
        -- eapply (IH [] (w :: g)); [reflexivity | exact Hx | exact Hy].
        -- eapply (IH (_ :: G1)); [simpl; f_equal; eassumption | exact Hx | exact Hy].
      * destruct G1 as [|h G1]; simplify_eq/=.
        -- intros E. apply Haddr. now symmetry.
        -- eapply IH; [eassumption | exact Hx | exact Hy].
Qed.

(** C2. The groups of [group_transactions], one after the other, are the
    transactions of the bundle in order; every group is a non-empty run of
    transactions that all have the same address; and where one group ends
    and the next begins the address changes. *)
Theorem group_transactions_partition (b : Bundle) :
  concat (group_transactions b) = transactions b
  /\ Forall (fun g => g <> []
                      /\ forall x y, x ∈ g -> y ∈ g -> address x = address y)
            (group_transactions b)
  /\ (forall G1 g1 g2 G2 x y,
        group_transactions b = G1 ++ g1 :: g2 :: G2 ->
        last g1 = Some x -> head g2 = Some y -> address x <> address y).
Proof.
  rewrite group_transactions_runs.
  split; [apply concat_runs|]. split; [apply runs_uniform|].
  apply runs_boundaries.
Qed.

(** C8. The hash of a bundle never raises: it is the bundle hash of the
    first transaction, and [None] for a bundle without transactions,
    where [tail_transaction] raises IndexError. *)
Theorem Bundle_hash_tail (b : Bundle) :
  Bundle_hash b = Ok (match transactions b with
                      | [] => None
                      | txn :: _ => Some (bundle_hash txn)
                      end)
  /\ (transactions b = [] -> tail_transaction b = Raise IndexError)
  /\ (forall txn rest, transactions b = txn :: rest -> tail_transaction b = Ok txn).
Proof.
  unfold Bundle_hash, tail_transaction, Bundle___getitem__.
  destruct (transactions b) as [|txn rest].
  - repeat split; try reflexivity. intros ? ? H. discriminate H.
  - cbn [length]. rewrite Nat2Z.inj_succ.
    assert (H : ((0 <=? 0) && (0 <? Z.succ (Z.of_nat (length rest))))%Z = true).
    { apply andb_true_iff. split; [reflexivity | apply Z.ltb_lt; lia]. }
    change (0 <? 0)%Z with false. cbv iota. rewrite H. cbn.
    repeat split; try reflexivity.
    + intros E. discriminate E.
    + intros ? ? E. now injection E as -> _.
Qed.

(** *** Encoding a bundle *)

Lemma mapM_Ok {A B : Type} (f : A -> result B) (l : list A) (k : list B) :
  mapM f l = Ok k <-> Forall2 (fun x y => f x = Ok y) l k.
Proof.
  revert k. induction l as [|x l IH]; intros k.
  - split.
    + intros H. injection H as <-. constructor.
    + intros H. inversion H. reflexivity.
  - change (mapM f (x :: l)) with (y ← f x; k' ← mapM f l; mret (y :: k')).
    split.
    + intros H. destruct (f x) as [y|e] eqn:Ex; [|discriminate H].
      destruct (mapM f l) as [k'|e] eqn:El; [|discriminate H].
      injection H as <-. constructor; [exact Ex | now apply IH].
    + intros H. inversion H as [|? y ? k' Ex Hl]; subst.
      apply IH in Hl. rewrite Ex, Hl. reflexivity.
Qed.

Lemma Forall2_reverse_2 {A B : Type} (R : A -> B -> Prop) (l : list A) (k : list B) :
  Forall2 R l k -> Forall2 R (reverse l) (reverse k).
Proof.
  induction 1 as [|x y l k Hxy _ IH]; [constructor|].
  rewrite !reverse_cons. apply Forall2_app; [exact IH | repeat constructor; exact Hxy].
Qed.

Section Broadcast.

Variable truth : TryteString -> bool.

(** C6. With [head_to_tail] true the encodings of the transactions come
    in the order of the bundle, with [head_to_tail] false (the default)
    in the reverse order: one call returns a list exactly when the other
    returns the reversed list. A bundle made by the constructor is in
    ascending order of [current_index]. *)
Theorem as_tryte_strings_order (b : Bundle) (encodings : list TryteString) :
  (as_tryte_strings truth b true = Ok encodings
   <-> Forall2 (fun txn e => as_tryte_string truth txn = Ok e)
               (transactions b) encodings)
  /\ (as_tryte_strings truth b false = Ok encodings
      <-> Forall2 (fun txn e => as_tryte_string truth txn = Ok e)
                  (reverse (transactions b)) encodings)
  /\ (as_tryte_strings truth b false = Ok encodings
      <-> as_tryte_strings truth b true = Ok (reverse encodings))
  /\ (forall txns, b = Bundle___init__ (Some txns) ->
        StronglySorted (key_le current_index) (transactions b)).
Proof.
  unfold as_tryte_strings. rewrite !mapM_Ok.
  split; [reflexivity|]. split; [reflexivity|]. split.
  - split; intros H; apply Forall2_reverse_2 in H.
    + now rewrite reverse_involutive in H.
    + now rewrite reverse_involutive in H.
  - intros txns ->. rewrite Bundle_init_transactions.
    apply sorted_StronglySorted.
Qed.

End Broadcast.

(** ** The confirmation flag *)

Lemma set_is_confirmed_idemp (v : option bool) (txn : Transaction) :
  set_is_confirmed v (set_is_confirmed v txn) = set_is_confirmed v txn.
Proof. reflexivity. Qed.

Lemma is_confirmed_set (v : option bool) (txn : Transaction) :
  is_confirmed (set_is_confirmed v txn) = v.
Proof. reflexivity. Qed.

(** The loop of the setter: the references are assigned to in list order,
    and an object is updated exactly when a reference to it is in the
    list, however often. *)
Lemma foldl_assign_is_confirmed (v : option bool) (refs : list ref) :
  forall st : gmap ref Transaction * list ref,
    (foldl (assign_is_confirmed v) st refs).2 = st.2 ++ refs
    /\ forall r, (foldl (assign_is_confirmed v) st refs).1 !! r
                 = if decide (r ∈ refs) then set_is_confirmed v <$> st.1 !! r
                   else st.1 !! r.
Proof.
  induction refs as [|x refs IH]; intros st.
  - split; [symmetry; apply app_nil_r|].
    intros r. rewrite decide_False by apply not_elem_of_nil. reflexivity.
  - cbn [foldl]. destruct (IH (assign_is_confirmed v st x)) as [IH1 IH2].
    split.
    + rewrite IH1. cbn. rewrite <- app_assoc. reflexivity.
    + intros r. rewrite IH2. cbn [assign_is_confirmed fst]. rewrite lookup_alter.
      destruct (decide (r ∈ refs)) as [Hin | Hin];
        destruct (decide (x = r)) as [-> | Hne].
      * rewrite decide_True by left.
        destruct (st.1 !! r); reflexivity.
      * rewrite decide_True by (now right). reflexivity.
      * rewrite decide_True by left. reflexivity.
      * rewrite decide_False; [reflexivity|].
        intros H. apply elem_of_cons in H as [-> | H]; [now apply Hne | now apply Hin].
Qed.

(** C7. Setting the flag of a bundle to [v] sets the flag of the bundle,
    leaves its list of transactions as it is, and assigns [v] to the
    transactions in the order of the list. Afterwards every transaction of
    the bundle reads [v] and is otherwise unchanged, also one that stands
    in the list more than once; every other object of the store is
    unchanged. *)
Theorem is_confirmed_setter_cascade (v : option bool)
    (store : gmap ref Transaction) (b : BundleObject) :
  let '(store', b', assigned) := is_confirmed_setter v store b in
  _is_confirmed_obj b' = v
  /\ transactions_refs b' = transactions_refs b
  /\ assigned = transactions_refs b
  /\ (forall r, r ∈ transactions_refs b ->
        store' !! r = set_is_confirmed v <$> store !! r)
  /\ (forall r txn, r ∈ transactions_refs b -> store' !! r = Some txn ->
        is_confirmed txn = v)
  /\ (forall r, r ∉ transactions_refs b -> store' !! r = store !! r).
Proof.
  unfold is_confirmed_setter. cbn [transactions_refs _is_confirmed_obj].
  destruct (foldl_assign_is_confirmed v (transactions_refs b) (store, []))
    as [H1 H2].
  cbn [fst snd] in H1, H2.
  split; [reflexivity|]. split; [reflexivity|]. split; [exact H1|].
  split; [|split].
  - intros r Hr. rewrite H2, decide_True by exact Hr. reflexivity.
  - intros r txn Hr Hl. rewrite H2, decide_True in Hl by exact Hr.
    destruct (store !! r) as [t|]; [|discriminate Hl].
    injection Hl as <-. reflexivity.
  - intros r Hr. rewrite H2, decide_False by exact Hr. reflexivity.
Qed.

(** On a bundle taken by value the setter gives every transaction and the
    bundle the flag. *)
Lemma Bundle_set_is_confirmed_all (v : option bool) (b : Bundle) :
  _is_confirmed (Bundle_set_is_confirmed v b) = v
  /\ Forall (fun txn => is_confirmed txn = v)
            (transactions (Bundle_set_is_confirmed v b)).
Proof.
  split; [reflexivity|]. cbn. apply Forall_forall.
  intros txn Hin. apply list_elem_of_fmap in Hin as (t & -> & _). reflexivity.
Qed.

(** ** Messages *)

Section Messages.

Variable truth : TryteString -> bool.

Implicit Type decode : TryteString -> string -> result string.

(** The messages built so far stay in front of the ones that follow. *)
Lemma get_messages_loop_acc decode (errors d : string)
    (groups : list (list Transaction)) :
  forall acc,
    get_messages_loop truth decode errors d groups acc
    = (ms ← get_messages_loop truth decode errors d groups []; mret (acc ++ ms)).
Proof.
  induction groups as [|g gs IH]; intros acc.
  - cbn. now rewrite app_nil_r.
  - cbn [get_messages_loop]. destruct g as [|first rest]; [reflexivity|].
    destruct (value first <? 0)%Z; [apply IH|].
    destruct (truth (message_trytes (first :: rest))); [|apply IH].
    destruct (decode (message_trytes (first :: rest)) d) as [m|e].
    + rewrite (IH (acc ++ [m])), (IH ([] ++ [m])).
      destruct (get_messages_loop truth decode errors d gs []) as [ms|e]; cbn;
        [|reflexivity].
      now rewrite <- app_assoc.
    + destruct (is_decode_error e); [|reflexivity].
      destruct (negb (String.eqb errors "drop")); [reflexivity | apply IH].
Qed.

(** The loop decodes the buffers of the groups that carry a message, in
    order, and collects the outcomes. *)
Lemma get_messages_loop_collect decode (errors d : string)
    (groups : list (list Transaction)) :
  Forall (fun g => g <> []) groups ->
  get_messages_loop truth decode errors d groups []
  = collect (String.eqb errors "drop")
      (map (fun g => decode (message_trytes g) d)
           (filter (fun g => carries_message truth g = true) groups)).
Proof.
  induction 1 as [|g gs Hg _ IH]; [reflexivity|].
  destruct g as [|first rest]; [contradiction|].
  cbn [get_messages_loop].
  destruct (value first <? 0)%Z eqn:Ev.
  { rewrite filter_cons_False; [exact IH|].
    unfold carries_message. cbn [is_input]. rewrite Ev. discriminate. }
  destruct (truth (message_trytes (first :: rest))) eqn:Et.
  2:{ rewrite filter_cons_False; [exact IH|].
      unfold carries_message. cbn [is_input]. rewrite Ev, Et. discriminate. }
  rewrite filter_cons_True
    by (unfold carries_message; cbn [is_input]; rewrite Ev, Et; reflexivity).
  cbn [map collect].
  destruct (decode (message_trytes (first :: rest)) d) as [m|e].
  - rewrite get_messages_loop_acc, IH. reflexivity.
  - destruct (is_decode_error e); [|reflexivity].
    destruct (String.eqb errors "drop"); [exact IH | reflexivity].
Qed.

Lemma group_transactions_nonempty (b : Bundle) :
  Forall (fun g => g <> []) (group_transactions b).
Proof.
  rewrite group_transactions_runs.
  eapply Forall_impl; [apply runs_uniform|]. now intros g [Hg _].
Qed.

Lemma get_messages_collect decode (b : Bundle) (errors : string) :
  get_messages truth decode b errors
  = collect (String.eqb errors "drop")
      (map (fun g => decode (message_trytes g)
                       (if String.eqb errors "drop" then "strict"%string else errors))
           (filter (fun g => carries_message truth g = true)
                   (group_transactions b))).
Proof.
  unfold get_messages. apply get_messages_loop_collect, group_transactions_nonempty.
Qed.

(** A list that is returned holds the messages of the outcomes. *)
Lemma collect_Ok (drop : bool) (outcomes : list (result string)) (msgs : list string) :
  collect drop outcomes = Ok msgs -> msgs = omap message_of outcomes.
Proof.
  revert msgs. induction outcomes as [|[m|e] outs IH]; intros msgs H; cbn in *.
  - now injection H as <-.
  - destruct (collect drop outs) as [ms|]; [|discriminate H].
    cbn in H. injection H as <-. now rewrite <- (IH ms).
  - destruct (is_decode_error e && drop); [now apply IH | discriminate H].
Qed.

(** With [drop] set, raised decoding errors are left out. *)
Lemma collect_drop (outcomes : list (result string)) :
  (forall e, Raise e ∈ outcomes -> is_decode_error e = true) ->
  collect true outcomes = Ok (omap message_of outcomes).
Proof.
  induction outcomes as [|[m|e] outs IH]; intros He; cbn.
  - reflexivity.
  - rewrite IH by (intros e H; apply He; now right). reflexivity.
  - rewrite (He e) by left. cbn. apply IH. intros e' H. apply He. now right.
Qed.

(** Without [drop], the first raised exception is the result. *)
Lemma collect_propagate (o1 o2 : list (result string)) (e : exn) :
  Forall (fun o => exists m, o = Ok m) o1 ->
  collect false (o1 ++ Raise e :: o2) = Raise e.
Proof.
  induction 1 as [|o o1 [m ->] _ IH]; cbn.
  - now rewrite andb_false_r.
  - cbn in IH. now rewrite IH.
Qed.

Lemma collect_false_Ok (outcomes : list (result string)) (msgs : list string) :
  collect false outcomes = Ok msgs ->
  Forall (fun o => exists m, o = Ok m) outcomes.
Proof.
  revert msgs. induction outcomes as [|[m|e] outs IH]; intros msgs H; cbn in H.
  - constructor.
  - destruct (collect false outs) as [ms|] eqn:E; [|discriminate H].
    constructor; [eauto | eapply IH; reflexivity].
  - rewrite andb_false_r in H. discriminate H.
Qed.

Lemma omap_message_of {A : Type} (f : A -> result string) (l : list A) :
  omap message_of (map f l) = omap (fun x => message_of (f x)) l.
Proof.
  induction l as [|x l IH]; [reflexivity|].
  change (omap message_of (map f (x :: l)))
    with (match message_of (f x) with
          | Some y => y :: omap message_of (map f l)
          | None => omap message_of (map f l)
          end).
  rewrite IH. reflexivity.
Qed.

Lemma eqb_drop (errors : string) :
  errors <> "drop"%string -> String.eqb errors "drop" = false.
Proof. intros H. now apply String.eqb_neq. Qed.

(** The clause [except (TrytesDecodeError, UnicodeDecodeError)] catches
    these two exceptions and no other. *)
Lemma is_decode_error_true (e : exn) :
  is_decode_error e = true <-> e = TrytesDecodeError \/ e = UnicodeDecodeError.
Proof.
  destruct e; cbn; split; auto; try discriminate;
    intros [H | H]; discriminate H.
Qed.

(** When every outcome is a message, the messages are returned, with or
    without [drop]. *)
Lemma collect_all_Ok (drop : bool) (outcomes : list (result string)) :
  Forall (fun o => exists m, o = Ok m) outcomes ->
  collect drop outcomes = Ok (omap message_of outcomes).
Proof.
  induction 1 as [|o outs [m ->] _ IH]; [reflexivity|].
  cbn. rewrite IH. reflexivity.
Qed.

(** With [drop], an exception that the clause does not catch is raised,
    after messages and decoding errors that were passed. *)
Lemma collect_drop_other (o1 o2 : list (result string)) (e : exn) :
  Forall (fun o => (exists m, o = Ok m) \/ o = Raise TrytesDecodeError
                   \/ o = Raise UnicodeDecodeError) o1 ->
  e <> TrytesDecodeError -> e <> UnicodeDecodeError ->
  collect true (o1 ++ Raise e :: o2) = Raise e.
Proof.
  intros H He1 He2. induction H as [|o o1 Ho _ IH]; cbn.
  - destruct e; try reflexivity; contradiction.
  - cbn in IH. destruct Ho as [[m ->] | [-> | ->]]; cbn; now rewrite IH.
Qed.

(** C5. The groups that are not groups of inputs and whose buffer is
    true are decoded in order, the other groups are passed over. A list
    that is returned holds the decoded messages in that order, and when
    every buffer decodes the list is returned, under every policy. Under
    drop a TrytesDecodeError or UnicodeDecodeError of the decoder is left
    out and the call returns, while any other exception is raised; under
    any other policy, strict among them, the first exception raised by
    the decoder is raised by the call. So when a buffer fails to decode
    with one of the two decoding errors, the call returns a list exactly
    under drop. *)
Theorem get_messages_policy decode (b : Bundle) (errors : string) :
  let decode_errors := if String.eqb errors "drop" then "strict"%string else errors in
  let carriers := filter (fun g => carries_message truth g = true)
                         (group_transactions b) in
  let outcome := fun g => decode (message_trytes g) decode_errors in
  (forall msgs, get_messages truth decode b errors = Ok msgs ->
                msgs = omap (fun g => message_of (outcome g)) carriers)
  /\ Forall (fun g => is_input g = false) carriers
  /\ (Forall (fun g => exists m, outcome g = Ok m) carriers ->
      get_messages truth decode b errors
      = Ok (omap (fun g => message_of (outcome g)) carriers))
  /\ (errors = "drop"%string ->
      (forall g e, g ∈ carriers -> outcome g = Raise e ->
                   e = TrytesDecodeError \/ e = UnicodeDecodeError) ->
      get_messages truth decode b errors
      = Ok (omap (fun g => message_of (outcome g)) carriers))
  /\ (errors = "drop"%string ->
      forall gs1 g gs2 e,
        carriers = gs1 ++ g :: gs2 ->
        Forall (fun g' => (exists m, outcome g' = Ok m)
                          \/ outcome g' = Raise TrytesDecodeError
                          \/ outcome g' = Raise UnicodeDecodeError) gs1 ->
        outcome g = Raise e ->
        e <> TrytesDecodeError -> e <> UnicodeDecodeError ->
        get_messages truth decode b errors = Raise e)
  /\ (errors <> "drop"%string ->
      forall gs1 g gs2 e,
        carriers = gs1 ++ g :: gs2 ->
        Forall (fun g' => exists m, outcome g' = Ok m) gs1 ->
        outcome g = Raise e ->
        get_messages truth decode b errors = Raise e)
  /\ ((exists g e, g ∈ carriers /\ outcome g = Raise e) ->
      (forall g e, g ∈ carriers -> outcome g = Raise e ->
                   e = TrytesDecodeError \/ e = UnicodeDecodeError) ->
      ((exists msgs, get_messages truth decode b errors = Ok msgs)
       <-> errors = "drop"%string)).
Proof.
  cbv zeta. rewrite get_messages_collect.
  set (d := if String.eqb errors "drop" then "strict"%string else errors).
  set (carriers := filter (fun g => carries_message truth g = true)
                          (group_transactions b)).
  assert (Hraise : (forall g e, g ∈ carriers -> decode (message_trytes g) d = Raise e ->
                                e = TrytesDecodeError \/ e = UnicodeDecodeError) ->
                   forall e, Raise e ∈ map (fun g => decode (message_trytes g) d) carriers ->
                             is_decode_error e = true).
  { intros He e Hin. apply list_elem_of_fmap in Hin as (g & Hg & Hin).
    apply is_decode_error_true. now apply (He g e Hin). }
  split; [|split; [|split; [|split; [|split; [|split]]]]].
  - intros msgs H. apply collect_Ok in H. rewrite H.
    apply omap_message_of.
  - apply Forall_forall. intros g Hg.
    apply list_elem_of_filter in Hg as [Hc _]. unfold carries_message in Hc.
    apply andb_true_iff in Hc as [Hc _]. now apply negb_true_iff in Hc.
  - intros Hok. rewrite collect_all_Ok by (apply Forall_fmap; exact Hok).
    f_equal. apply omap_message_of.
  - intros -> He. cbn [String.eqb Ascii.eqb Bool.eqb].
    rewrite collect_drop by (apply Hraise, He).
    f_equal. apply omap_message_of.
  - intros -> gs1 g gs2 e -> Hpass Hg He1 He2.
    cbn [String.eqb Ascii.eqb Bool.eqb]. rewrite map_app. cbn [map]. rewrite Hg.
    apply collect_drop_other; [|exact He1 | exact He2].
    apply Forall_fmap. exact Hpass.
  - intros Hne gs1 g gs2 e -> Hok Hg.
    rewrite eqb_drop by exact Hne. rewrite map_app. cbn [map]. rewrite Hg.
    apply collect_propagate. apply Forall_fmap. exact Hok.
  - intros (g & e & Hin & Hg) He. split.
    + intros [msgs H].
      destruct (String.eqb errors "drop") eqn:E; [now apply String.eqb_eq|].
      apply collect_false_Ok in H. rewrite Forall_fmap, Forall_forall in H.
      destruct (H g Hin) as [m Hm]. cbn in Hm. rewrite Hg in Hm. discriminate Hm.
    + intros ->. cbn [String.eqb Ascii.eqb Bool.eqb].
      rewrite collect_drop by (apply Hraise, He). eauto.
Qed.


End Messages.

(** ** Examples *)

Example trits_from_int_examples :
  trits_from_int 5 3 = Ok [-1; -1; 1]%Z
  /\ trits_from_int (-5) 4 = Ok [1; 1; -1; 0]%Z
  /\ trits_from_int 14 3 = Raise RangeError
  /\ int_from_trits [-1; -1; 1]%Z = 5%Z
  /\ as_trits [tA; tM; tN; tZ] = [1; 0; 0; 1; 1; 1; -1; -1; -1; -1; 0; 0]%Z
  /\ from_trits [1; 0; 0; 1; 1; 1; -1; -1; -1; -1; 0; 0]%Z = [tA; tM; tN; tZ].
Proof. repeat split. Qed.

Example Bundle_init_example :
  transactions (Bundle___init__ (Some [txn_first_1; txn_0; txn_second_1]))
  = [txn_0; txn_first_1; txn_second_1]
  /\ transactions (Bundle___init__ (Some [txn_second_1; txn_first_1; txn_0]))
     = [txn_0; txn_second_1; txn_first_1].
Proof. split; reflexivity. Qed.

Example group_transactions_example :
  transactions example_bundle
  = [txn_hello; txn_input; txn_input_2; txn_invalid; txn_blank]
  /\ group_transactions example_bundle
     = [[txn_hello]; [txn_input; txn_input_2]; [txn_invalid]; [txn_blank]].
Proof. split; vm_compute; reflexivity. Qed.

Example get_messages_examples :
  get_messages TryteString_bool ascii_decode hello_bundle "drop" = Ok ["HELLO"%string]
  /\ get_messages TryteString_bool ascii_decode example_bundle "drop"
     = Ok ["HELLO"%string]
  /\ get_messages TryteString_bool ascii_decode example_bundle "strict"
     = Raise TrytesDecodeError
  /\ get_messages TryteString_bool ascii_decode example_bundle "replace"
     = Ok ["HELLO"%string; "?"%string]
  /\ get_messages TryteString_bool ascii_decode example_bundle "ignore"
     = Ok ["HELLO"%string; EmptyString].
Proof. repeat split; vm_compute; reflexivity. Qed.

Example Bundle_hash_examples :
  Bundle_hash (Bundle___init__ None) = Ok None
  /\ tail_transaction (Bundle___init__ None) = Raise IndexError
  /\ Bundle_hash hello_bundle = Ok (Some (repeat t9 81)).
Proof. repeat split. Qed.

Example is_confirmed_setter_example :
  let '(store', b', assigned) :=
    is_confirmed_setter (Some true) example_store example_bundle_object in
  store' !! 1%positive = Some (set_is_confirmed (Some true) txn_hello)
  /\ store' !! 2%positive = Some txn_input
  /\ _is_confirmed_obj b' = Some true
  /\ assigned = [1%positive; 1%positive].
Proof. vm_compute. repeat split. Qed.


(** ** Further properties of the transaction codec *)

Lemma slice_skip (x rest : TryteString) (i j n : Z) :
  len x = n -> (n <= i <= j)%Z ->
  slice i j (x ++ rest) = slice (i - n) (j - n) rest.
Proof.
  unfold len, slice. intros Hn Hij.
  rewrite drop_app_ge by lia. do 2 f_equal; lia.
Qed.

Lemma slice_head (x rest : TryteString) (i j : Z) :
  i = 0%Z -> len x = j -> slice i j (x ++ rest) = x.
Proof.
  unfold len, slice. intros -> Hj. rewrite drop_0, Z.sub_0_r.
  rewrite take_app_length' by lia. reflexivity.
Qed.

Lemma slice_last (x : TryteString) (i j : Z) :
  i = 0%Z -> len x = j -> slice i j x = x.
Proof. intros -> Hj. now apply slice_whole. Qed.

Lemma int_as_trytes_fits_len (v : Z) (n : nat) :
  (Z.abs v <= max_int (3 * n))%Z ->
  exists s, int_as_trytes v (3 * n) = Ok s /\ len s = Z.of_nat n
            /\ int_from_trits (as_trits s) = v.
Proof.
  intros Hv. destruct (int_as_trytes_fits v n Hv) as (s & H1 & H2 & H3).
  exists s. unfold len. rewrite H2. auto.
Qed.

Section CodecRoundTrips.

Variable truth : TryteString -> bool.
Variable Curl : list Z -> list Z.

Lemma len_legacy_tag (txn : Transaction) :
  wire_sized txn -> len (legacy_tag truth txn) = 27%Z.
Proof.
  intros (_ & _ & _ & _ & _ & Htag & _ & Hl & _). unfold legacy_tag.
  destruct (_legacy_tag txn) as [l|]; [|exact Htag].
  destruct (truth l); [now apply Hl | exact Htag].
Qed.

(** The accessor returns a tryte string on which it would decide the same
    way again. *)
Lemma legacy_tag_stable (txn : Transaction) :
  (if truth (legacy_tag truth txn) then legacy_tag truth txn else tag txn)
  = legacy_tag truth txn.
Proof.
  unfold legacy_tag. destruct (_legacy_tag txn) as [l|].
  - destruct (truth l) eqn:E; [now rewrite E|].
    now destruct (truth (tag txn)).
  - now destruct (truth (tag txn)).
Qed.

Lemma len_Address_address (a : TryteString) :
  (81 <= len a)%Z -> len (Address_address a) = 81%Z.
Proof. intros H. unfold Address_address. rewrite len_slice by lia. lia. Qed.

(** The encoding of a transaction that fits the wire format, part by
    part. *)
Lemma as_tryte_string_wire_sized (txn : Transaction) :
  wire_sized txn ->
  exists v ts ci li at_ atl atu,
    as_tryte_string truth txn
    = Ok (signature_message_fragment txn ++ Address_address (address txn) ++ v
          ++ legacy_tag truth txn ++ ts ++ ci ++ li ++ bundle_hash txn
          ++ trunk_transaction_hash txn ++ branch_transaction_hash txn
          ++ tag txn ++ at_ ++ atl ++ atu ++ nonce txn)
    /\ (len v = 27%Z /\ int_from_trits (as_trits v) = value txn)
    /\ (len ts = 9%Z /\ int_from_trits (as_trits ts) = timestamp txn)
    /\ (len ci = 9%Z /\ int_from_trits (as_trits ci) = current_index txn)
    /\ (len li = 9%Z /\ int_from_trits (as_trits li) = last_index txn)
    /\ (len at_ = 9%Z /\ int_from_trits (as_trits at_) = attachment_timestamp txn)
    /\ (len atl = 9%Z
        /\ int_from_trits (as_trits atl) = attachment_timestamp_lower_bound txn)
    /\ (len atu = 9%Z
        /\ int_from_trits (as_trits atu) = attachment_timestamp_upper_bound txn).
Proof.
  intros Hw. pose proof (len_legacy_tag txn Hw) as Hlt.
  destruct Hw as (Hf & Ha & Hbh & Htr & Hbr & Htag & Hn & _
                  & Hv & Hts & Hci & Hli & Hat & Hatl & Hatu).
  apply len_Address_address in Ha.
  destruct (int_as_trytes_fits_len (value txn) 27 Hv) as (v & Ev & Lv & Dv).
  destruct (int_as_trytes_fits_len (timestamp txn) 9 Hts) as (ts & Ets & Lts & Dts).
  destruct (int_as_trytes_fits_len (current_index txn) 9 Hci) as (ci & Eci & Lci & Dci).
  destruct (int_as_trytes_fits_len (last_index txn) 9 Hli) as (li & Eli & Lli & Dli).
  destruct (int_as_trytes_fits_len (attachment_timestamp txn) 9 Hat)
    as (at_ & Eat & Lat & Dat).
  destruct (int_as_trytes_fits_len (attachment_timestamp_lower_bound txn) 9 Hatl)
    as (atl & Eatl & Latl & Datl).
  destruct (int_as_trytes_fits_len (attachment_timestamp_upper_bound txn) 9 Hatu)
    as (atu & Eatu & Latu & Datu).
  exists v, ts, ci, li, at_, atl, atu.
  split; [|repeat split; assumption].
  unfold as_tryte_string, value_as_trytes, timestamp_as_trytes,
    current_index_as_trytes, last_index_as_trytes, attachment_timestamp_as_trytes,
    attachment_timestamp_lower_bound_as_trytes,
    attachment_timestamp_upper_bound_as_trytes.
  change (int_as_trytes (value txn) 81 = Ok v) in Ev.
  change (int_as_trytes (timestamp txn) 27 = Ok ts) in Ets.
  change (int_as_trytes (current_index txn) 27 = Ok ci) in Eci.
  change (int_as_trytes (last_index txn) 27 = Ok li) in Eli.
  change (int_as_trytes (attachment_timestamp txn) 27 = Ok at_) in Eat.
  change (int_as_trytes (attachment_timestamp_lower_bound txn) 27 = Ok atl) in Eatl.
  change (int_as_trytes (attachment_timestamp_upper_bound txn) 27 = Ok atu) in Eatu.
  rewrite Ev, Ets, Eci, Eli, Eat, Eatl, Eatu.
  cbn [mbind mret result_bind result_ret].
  unfold TransactionTrytes. rewrite !len_app.
  rewrite Hf, Ha, Lv, Hlt, Lts, Lci, Lli, Hbh, Htr, Hbr, Htag, Lat, Latl, Latu, Hn.
  reflexivity.
Qed.

(** The body that a transaction is encoded as is decoded to a transaction
    with the same encoding. *)
Lemma encoded_fixed_point (txn : Transaction) (hash_ : option TryteString) :
  wire_sized txn ->
  exists body txn',
    as_tryte_string truth txn = Ok body
    /\ len body = 2673%Z
    /\ from_tryte_string truth Curl body hash_ = Ok txn'
    /\ as_tryte_string truth txn' = Ok body.
Proof.
  intros Hw. pose proof (len_legacy_tag txn Hw) as Hlt.
  destruct (as_tryte_string_wire_sized txn Hw)
    as (v & ts & ci & li & at_ & atl & atu & Henc & [Lv Dv] & [Lts Dts] & [Lci Dci]
        & [Lli Dli] & [Lat Dat] & [Latl Datl] & [Latu Datu]).
  destruct Hw as (Hf & Ha & Hbh & Htr & Hbr & Htag & Hn & _).
  apply len_Address_address in Ha.
  set (body := signature_message_fragment txn ++ Address_address (address txn) ++ v
          ++ legacy_tag truth txn ++ ts ++ ci ++ li ++ bundle_hash txn
          ++ trunk_transaction_hash txn ++ branch_transaction_hash txn
          ++ tag txn ++ at_ ++ atl ++ atu ++ nonce txn) in *.
  assert (Hlen : len body = 2673%Z).
  { subst body. rewrite !len_app.
    rewrite Hf, Ha, Lv, Hlt, Lts, Lci, Lli, Hbh, Htr, Hbr, Htag, Lat, Latl, Latu, Hn.
    reflexivity. }
  assert (S3 : slice 2295 2322 body = legacy_tag truth txn).
  { subst body. do 3 (erewrite slice_skip by first [eassumption | lia]).
    apply slice_head; lia. }
  assert (S10 : slice 2592 2619 body = tag txn).
  { subst body. do 10 (erewrite slice_skip by first [eassumption | lia]).
    apply slice_head; lia. }
  destruct (as_tryte_string_from_tryte_string truth Curl body hash_ Hlen)
    as (txn' & b' & Hdec & Henc' & _ & Hiff).
  exists body, txn'. repeat split; try assumption.
  rewrite Henc'. f_equal. apply Hiff. rewrite S3, S10.
  unfold legacy_tag. destruct (_legacy_tag txn) as [l|]; [|now right].
  destruct (truth l) eqn:E; [now left | now right].
Qed.

(** X2. Encoding, then decoding. A transaction that fits the wire format is
    encoded as a body of 2673 trytes; decoding the body gives a
    transaction with the same fragment, address (without checksum),
    numbers, hashes, tag and nonce, whose legacy tag is set to what the
    accessor [legacy_tag] returned, and whose encoding is the same body.
    The confirmation flag is not carried over. *)
Theorem from_tryte_string_as_tryte_string (txn : Transaction)
    (hash_ : option TryteString) :
  wire_sized txn ->
  exists body txn',
    as_tryte_string truth txn = Ok body
    /\ len body = 2673%Z
    /\ from_tryte_string truth Curl body hash_ = Ok txn'
    /\ signature_message_fragment txn' = signature_message_fragment txn
    /\ address txn' = Address_address (address txn)
    /\ value txn' = value txn
    /\ _legacy_tag txn' = Some (legacy_tag truth txn)
    /\ legacy_tag truth txn' = legacy_tag truth txn
    /\ timestamp txn' = timestamp txn
    /\ current_index txn' = current_index txn
    /\ last_index txn' = last_index txn
    /\ bundle_hash txn' = bundle_hash txn
    /\ trunk_transaction_hash txn' = trunk_transaction_hash txn
    /\ branch_transaction_hash txn' = branch_transaction_hash txn
    /\ tag txn' = tag txn
    /\ attachment_timestamp txn' = attachment_timestamp txn
    /\ attachment_timestamp_lower_bound txn' = attachment_timestamp_lower_bound txn
    /\ attachment_timestamp_upper_bound txn' = attachment_timestamp_upper_bound txn
    /\ nonce txn' = nonce txn
    /\ is_confirmed txn' = None
    /\ as_tryte_string truth txn' = Ok body.
Proof.
  intros Hw. pose proof (len_legacy_tag txn Hw) as Hlt.
  destruct (as_tryte_string_wire_sized txn Hw)
    as (v & ts & ci & li & at_ & atl & atu & Henc & [Lv Dv] & [Lts Dts] & [Lci Dci]
        & [Lli Dli] & [Lat Dat] & [Latl Datl] & [Latu Datu]).
  destruct Hw as (Hf & Ha & Hbh & Htr & Hbr & Htag & Hn & _).
  apply len_Address_address in Ha.
  set (body := signature_message_fragment txn ++ Address_address (address txn) ++ v
          ++ legacy_tag truth txn ++ ts ++ ci ++ li ++ bundle_hash txn
          ++ trunk_transaction_hash txn ++ branch_transaction_hash txn
          ++ tag txn ++ at_ ++ atl ++ atu ++ nonce txn) in *.
  assert (Hlen : len body = 2673%Z).
  { subst body. rewrite !len_app.
    rewrite Hf, Ha, Lv, Hlt, Lts, Lci, Lli, Hbh, Htr, Hbr, Htag, Lat, Latl, Latu, Hn.
    reflexivity. }
  destruct (from_tryte_string_fields truth Curl body hash_ Hlen)
    as (txn' & Hdec & Ff & Fa & Fv & Fl & Fts & Fci & Fli & Fbh & Ftr & Fbr & Ftag
        & Fat & Fatl & Fatu & Fn & Fc).
  assert (S0 : slice 0 2187 body = signature_message_fragment txn).
  { subst body. apply slice_head; [reflexivity | exact Hf]. }
  assert (S1 : slice 2187 2268 body = Address_address (address txn)).
  { subst body. erewrite slice_skip by first [eassumption | lia].
    apply slice_head; lia. }
  assert (S2 : slice 2268 2295 body = v).
  { subst body. do 2 (erewrite slice_skip by first [eassumption | lia]).
    apply slice_head; lia. }
  assert (S3 : slice 2295 2322 body = legacy_tag truth txn).
  { subst body. do 3 (erewrite slice_skip by first [eassumption | lia]).
    apply slice_head; lia. }
  assert (S4 : slice 2322 2331 body = ts).
  { subst body. do 4 (erewrite slice_skip by first [eassumption | lia]).
    apply slice_head; lia. }
  assert (S5 : slice 2331 2340 body = ci).
  { subst body. do 5 (erewrite slice_skip by first [eassumption | lia]).
    apply slice_head; lia. }
  assert (S6 : slice 2340 2349 body = li).
  { subst body. do 6 (erewrite slice_skip by first [eassumption | lia]).
    apply slice_head; lia. }
  assert (S7 : slice 2349 2430 body = bundle_hash txn).
  { subst body. do 7 (erewrite slice_skip by first [eassumption | lia]).
    apply slice_head; lia. }
  assert (S8 : slice 2430 2511 body = trunk_transaction_hash txn).
  { subst body. do 8 (erewrite slice_skip by first [eassumption | lia]).
    apply slice_head; lia. }
  assert (S9 : slice 2511 2592 body = branch_transaction_hash txn).
  { subst body. do 9 (erewrite slice_skip by first [eassumption | lia]).
    apply slice_head; lia. }
  assert (S10 : slice 2592 2619 body = tag txn).
  { subst body. do 10 (erewrite slice_skip by first [eassumption | lia]).
    apply slice_head; lia. }
  assert (S11 : slice 2619 2628 body = at_).
  { subst body. do 11 (erewrite slice_skip by first [eassumption | lia]).
    apply slice_head; lia. }
  assert (S12 : slice 2628 2637 body = atl).
  { subst body. do 12 (erewrite slice_skip by first [eassumption | lia]).
    apply slice_head; lia. }
  assert (S13 : slice 2637 2646 body = atu).
  { subst body. do 13 (erewrite slice_skip by first [eassumption | lia]).
    apply slice_head; lia. }
  assert (S14 : slice 2646 2673 body = nonce txn).
  { subst body. do 14 (erewrite slice_skip by first [eassumption | lia]).
    apply slice_last; lia. }
  rewrite S0 in Ff. rewrite S1 in Fa. rewrite S2, Dv in Fv. rewrite S3 in Fl.
  rewrite S4, Dts in Fts. rewrite S5, Dci in Fci. rewrite S6, Dli in Fli.
  rewrite S7 in Fbh. rewrite S8 in Ftr. rewrite S9 in Fbr. rewrite S10 in Ftag.
  rewrite S11, Dat in Fat. rewrite S12, Datl in Fatl. rewrite S13, Datu in Fatu.
  rewrite S14 in Fn.
  assert (Flt : legacy_tag truth txn' = legacy_tag truth txn).
  { rewrite (legacy_tag_decoded truth txn' _ _ Fl Ftag). apply legacy_tag_stable. }
  exists body, txn'.
  repeat (split; [assumption|]).
  destruct (as_tryte_string_from_tryte_string truth Curl body hash_ Hlen)
    as (txn2 & b' & Hdec2 & Henc2 & _ & Hiff).
  rewrite Hdec in Hdec2. injection Hdec2 as <-.
  rewrite Henc2. f_equal. apply Hiff.
  rewrite S3, S10.
  unfold legacy_tag. destruct (_legacy_tag txn) as [l|]; [|now right].
  destruct (truth l) eqn:E; [now left | now right].
Qed.

(** X1. The round trip of a body of 2673 trytes never fails and gives a body
    of 2673 trytes; it gives the body back exactly when the legacy tag
    field [2295:2322] is true as a tryte string or equals the tag field
    [2592:2619]. The hash that is supplied or derived plays no part. *)
Theorem round_trip_iff (b : TryteString) (hash_ : option TryteString) :
  len b = 2673%Z ->
  (exists b', (txn ← from_tryte_string truth Curl b hash_; as_tryte_string truth txn)
              = Ok b' /\ len b' = 2673%Z)
  /\ ((txn ← from_tryte_string truth Curl b hash_; as_tryte_string truth txn) = Ok b
      <-> round_trips truth b).
Proof.
  intros Hlen.
  destruct (as_tryte_string_from_tryte_string truth Curl b hash_ Hlen)
    as (txn & b' & Hdec & Henc & Hb' & Hiff).
  rewrite Hdec. cbn [mbind result_bind]. rewrite Henc. split.
  - exists b'. split; [reflexivity|]. rewrite Hb', !len_app.
    destruct (truth (slice 2295 2322 b)); rewrite !len_slice by lia; reflexivity.
  - unfold round_trips. split.
    + intros [= E]. split; [exact Hlen | now apply Hiff].
    + intros [_ H]. f_equal. now apply Hiff.
Qed.

(** The number that [n] trytes encode fits [3 * n] trits. *)
Lemma int_from_trits_as_trits_bound (s : TryteString) (n : nat) :
  len s = Z.of_nat n ->
  (Z.abs (int_from_trits (as_trits s)) <= max_int (3 * n))%Z.
Proof.
  intros Hn. unfold len in Hn.
  replace (3 * n) with (length (as_trits s)) by (rewrite length_as_trits; lia).
  apply int_from_trits_bound, as_trits_balanced.
Qed.

(** Tryte strings of one length that encode the same number are equal. *)
Lemma int_from_trits_as_trits_inj (s1 s2 : TryteString) :
  length s1 = length s2 ->
  int_from_trits (as_trits s1) = int_from_trits (as_trits s2) -> s1 = s2.
Proof.
  intros Hlen Heq.
  pose proof (int_as_trytes_int_from_trits s1 (length s1) eq_refl) as H1.
  pose proof (int_as_trytes_int_from_trits s2 (length s1) (eq_sym Hlen)) as H2.
  rewrite Heq, H2 in H1. now injection H1.
Qed.

(** A decoded transaction fits the wire format. *)
Lemma from_tryte_string_wire_sized (b : TryteString) (hash_ : option TryteString)
    (txn : Transaction) :
  len b = 2673%Z -> from_tryte_string truth Curl b hash_ = Ok txn -> wire_sized txn.
Proof.
  intros Hlen Hdec.
  destruct (from_tryte_string_fields truth Curl b hash_ Hlen)
    as (txn' & Hdec' & Ff & Fa & Fv & Fl & Fts & Fci & Fli & Fbh & Ftr & Fbr & Ftag
        & Fat & Fatl & Fatu & Fn & _).
  rewrite Hdec in Hdec'. injection Hdec' as <-.
  unfold wire_sized.
  rewrite Ff, Fa, Fv, Fl, Fts, Fci, Fli, Fbh, Ftr, Fbr, Ftag, Fat, Fatl, Fatu, Fn.
  rewrite !len_slice by lia.
  repeat split; try lia.
  - intros l [= <-]. rewrite len_slice by lia. lia.
  - apply (int_from_trits_as_trits_bound _ 27). rewrite len_slice by lia. lia.
  - apply (int_from_trits_as_trits_bound _ 9). rewrite len_slice by lia. lia.
  - apply (int_from_trits_as_trits_bound _ 9). rewrite len_slice by lia. lia.
  - apply (int_from_trits_as_trits_bound _ 9). rewrite len_slice by lia. lia.
  - apply (int_from_trits_as_trits_bound _ 9). rewrite len_slice by lia. lia.
  - apply (int_from_trits_as_trits_bound _ 9). rewrite len_slice by lia. lia.
  - apply (int_from_trits_as_trits_bound _ 9). rewrite len_slice by lia. lia.
Qed.

(** A decoded transaction is encoded without failure, as a body of 2673
    trytes. *)
Lemma from_tryte_string_as_tryte_string_decoded (b : TryteString) :
  len b = 2673%Z ->
  exists txn b',
    from_tryte_string truth Curl b None = Ok txn
    /\ as_tryte_string truth txn = Ok b'
    /\ len b' = 2673%Z.
Proof.
  intros Hlen.
  destruct (from_tryte_string_fields truth Curl b None Hlen) as (txn & Hdec & _).
  pose proof (from_tryte_string_wire_sized b None txn Hlen Hdec) as Hw.
  destruct (encoded_fixed_point txn None Hw) as (b' & txn' & Henc & Hl & _).
  exists txn, b'. auto.
Qed.

(** X3. Decoding and encoding again is idempotent: the body that a decoded
    transaction is encoded as is reproduced exactly by another round
    trip, whatever the first body was. *)
Theorem round_trip_idempotent (b : TryteString) (hash_ hash_' : option TryteString) :
  len b = 2673%Z ->
  exists txn b' txn',
    from_tryte_string truth Curl b hash_ = Ok txn
    /\ as_tryte_string truth txn = Ok b'
    /\ from_tryte_string truth Curl b' hash_' = Ok txn'
    /\ as_tryte_string truth txn' = Ok b'.
Proof.
  intros Hlen.
  destruct (from_tryte_string_fields truth Curl b hash_ Hlen) as (txn & Hdec & _).
  pose proof (from_tryte_string_wire_sized b hash_ txn Hlen Hdec) as Hw.
  destruct (encoded_fixed_point txn hash_' Hw) as (b' & txn' & Henc & _ & Hdec' & H).
  exists txn, b', txn'. repeat split; assumption.
Qed.

(** A body of 2673 trytes is its fifteen fields, one after the other. *)
Lemma body_fields (b : TryteString) :
  len b = 2673%Z ->
  b = slice 0 2187 b ++ slice 2187 2268 b ++ slice 2268 2295 b
      ++ slice 2295 2322 b ++ slice 2322 2331 b ++ slice 2331 2340 b
      ++ slice 2340 2349 b ++ slice 2349 2430 b ++ slice 2430 2511 b
      ++ slice 2511 2592 b ++ slice 2592 2619 b ++ slice 2619 2628 b
      ++ slice 2628 2637 b ++ slice 2637 2646 b ++ slice 2646 2673 b.
Proof.
  intros Hlen. rewrite !slice_app by lia. symmetry. now apply slice_whole.
Qed.

(** X4. Decoding loses nothing: two bodies of 2673 trytes that are decoded
    to the same transaction are the same body. *)
Theorem from_tryte_string_inj (b1 b2 : TryteString) (h1 h2 : option TryteString) :
  len b1 = 2673%Z -> len b2 = 2673%Z ->
  from_tryte_string truth Curl b1 h1 = from_tryte_string truth Curl b2 h2 ->
  b1 = b2.
Proof.
  intros L1 L2 Heq.
  destruct (from_tryte_string_fields truth Curl b1 h1 L1)
    as (t1 & D1 & Ff & Fa & Fv & Fl & Fts & Fci & Fli & Fbh & Ftr & Fbr & Ftag
        & Fat & Fatl & Fatu & Fn & _).
  destruct (from_tryte_string_fields truth Curl b2 h2 L2)
    as (t2 & D2 & Gf & Ga & Gv & Gl & Gts & Gci & Gli & Gbh & Gtr & Gbr & Gtag
        & Gat & Gatl & Gatu & Gn & _).
  rewrite D1, D2 in Heq. injection Heq as <-.
  assert (Hnum : forall i j, (0 <= i <= j)%Z -> (j <= 2673)%Z ->
             int_from_trits (as_trits (slice i j b1))
             = int_from_trits (as_trits (slice i j b2)) ->
             slice i j b1 = slice i j b2).
  { intros i j Hij Hj. apply int_from_trits_as_trits_inj.
    pose proof (len_slice i j b1 Hij ltac:(lia)) as E1.
    pose proof (len_slice i j b2 Hij ltac:(lia)) as E2.
    unfold len in E1, E2. lia. }
  rewrite (body_fields b1 L1), (body_fields b2 L2).
  rewrite <- Ff, <- Gf, <- Fa, <- Ga, <- Fbh, <- Gbh, <- Ftr, <- Gtr, <- Fbr, <- Gbr,
    <- Ftag, <- Gtag, <- Fn, <- Gn.
  rewrite Fl in Gl. injection Gl as <-.
  rewrite (Hnum 2268 2295)%Z by (lia || congruence).
  rewrite (Hnum 2322 2331)%Z by (lia || congruence).
  rewrite (Hnum 2331 2340)%Z by (lia || congruence).
  rewrite (Hnum 2340 2349)%Z by (lia || congruence).
  rewrite (Hnum 2619 2628)%Z by (lia || congruence).
  rewrite (Hnum 2628 2637)%Z by (lia || congruence).
  rewrite (Hnum 2637 2646)%Z by (lia || congruence).
  reflexivity.
Qed.

(** X5. A decoded transaction is a tail exactly when the current index field
    [2331:2340] of the body is padding. *)
Theorem is_tail_from_tryte_string (b : TryteString) (hash_ : option TryteString) :
  len b = 2673%Z ->
  exists txn, from_tryte_string truth Curl b hash_ = Ok txn
              /\ (is_tail txn = true <-> slice 2331 2340 b = repeat t9 9).
Proof.
  intros Hlen.
  destruct (from_tryte_string_fields truth Curl b hash_ Hlen)
    as (txn & Hdec & _ & _ & _ & _ & _ & Fci & _).
  exists txn. split; [exact Hdec|].
  unfold is_tail. rewrite Z.eqb_eq, Fci.
  assert (Hl : length (slice 2331 2340 b) = 9).
  { pose proof (len_slice 2331 2340 b ltac:(lia) ltac:(lia)) as E.
    unfold len in E. lia. }
  split.
  - intros H0. apply int_from_trits_as_trits_inj; [now rewrite Hl|].
    now rewrite H0.
  - intros ->. reflexivity.
Qed.

End CodecRoundTrips.

(** ** Further properties of bundles *)

(** A run in front of a list whose first address differs stays a group of
    its own. *)
Lemma runs_prepend (g l : list Transaction) :
  g <> [] ->
  (forall x y, x ∈ g -> y ∈ g -> address x = address y) ->
  (forall x y, last g = Some x -> head l = Some y -> address x <> address y) ->
  runs (g ++ l) = g :: runs l.
Proof.
  induction g as [|x g IH]; intros Hne Hu Hb; [contradiction|].
  destruct g as [|x' g].
  - cbn [app]. destruct l as [|y l]; [reflexivity|].
    destruct (runs_cons_inv y l) as (g' & rs & Hr).
    rewrite (runs_step x _ _ _ _ Hr), Hr.
    rewrite bool_decide_eq_false_2; [reflexivity|].
    intros E. apply (Hb x y); [reflexivity | reflexivity | now symmetry].
  - assert (Hr : runs ((x' :: g) ++ l) = (x' :: g) :: runs l).
    { apply IH; [discriminate | |].
      - intros a b Ha Hb'. apply Hu; now right.
      - intros a b Ha. apply Hb. now rewrite last_cons_cons. }
    change ((x :: x' :: g) ++ l) with (x :: ((x' :: g) ++ l)).
    rewrite (runs_step x _ _ _ _ Hr).
    rewrite bool_decide_eq_true_2; [reflexivity|].
    apply Hu; [right; left | left].
Qed.

(** X6. The three properties of the grouping determine it: a list of groups
    that concatenates to the transactions of the bundle, whose groups are
    non-empty with one address each, and whose neighbours differ in
    address where they meet, is the list that [group_transactions]
    returns. *)
Theorem group_transactions_unique (b : Bundle) (G : list (list Transaction)) :
  concat G = transactions b ->
  Forall (fun g => g <> []
                   /\ forall x y, x ∈ g -> y ∈ g -> address x = address y) G ->
  (forall G1 g1 g2 G2 x y,
      G = G1 ++ g1 :: g2 :: G2 ->
      last g1 = Some x -> head g2 = Some y -> address x <> address y) ->
  G = group_transactions b.
Proof.
  rewrite group_transactions_runs. intros <-. clear b.
  induction G as [|g G IH]; intros HG Hb; [reflexivity|].
  inversion HG as [|? ? [Hne Hu] HG']; subst.
  cbn [concat]. rewrite runs_prepend; [f_equal; apply IH | exact Hne | exact Hu |].
  - exact HG'.
  - intros G1 g1 g2 G2 x y ->. apply (Hb (g :: G1) g1 g2 G2 x y). reflexivity.
  - intros x y Hx Hy. destruct G as [|g2 G]; [discriminate Hy|].
    inversion HG' as [|? ? [Hne2 _] _]; subst.
    apply (Hb [] g g2 G x y); [reflexivity | exact Hx |].
    destruct g2 as [|z g2]; [contradiction|]. exact Hy.
Qed.

(** The grouping of the bundle of the examples is the only one with the
    three properties. *)
Lemma group_transactions_unique_witness :
  [[txn_hello]; [txn_input; txn_input_2]; [txn_invalid]; [txn_blank]]
  = group_transactions example_bundle.
Proof.
  apply (group_transactions_unique example_bundle).
  - vm_compute. reflexivity.
  - repeat constructor; try discriminate;
      intros x y Hx Hy;
      repeat (apply elem_of_cons in Hx as [-> | Hx]);
      repeat (apply elem_of_cons in Hy as [-> | Hy]);
      try reflexivity; try (now apply elem_of_nil in Hx);
      try (now apply elem_of_nil in Hy).
  - intros G1 g1 g2 G2 x y HG Hx Hy.
    destruct G1 as [|? [|? [|? [|? [|? ?]]]]]; simplify_eq/=;
      intros E; vm_compute in E; discriminate E.
Defined.

(** X7. The tail of a bundle made by the constructor from a non-empty list is
    a transaction of the list with the least [current_index], the first
    one in the list when several have it; the hash of the bundle is its
    bundle hash. Whether that index is 0 is not checked. *)
Theorem tail_transaction_least (txn0 : Transaction) (txns : list Transaction) :
  let b := Bundle___init__ (Some (txn0 :: txns)) in
  exists txn,
    tail_transaction b = Ok txn
    /\ txn ∈ txn0 :: txns
    /\ (forall t, t ∈ txn0 :: txns -> (current_index txn <= current_index t)%Z)
    /\ head (filter (fun t => current_index t = current_index txn) (txn0 :: txns))
       = Some txn
    /\ Bundle_hash b = Ok (Some (bundle_hash txn)).
Proof.
  cbv zeta.
  pose proof (Bundle_init_transactions (txn0 :: txns)) as Hs.
  pose proof (sorted_perm current_index (txn0 :: txns)) as Hp.
  pose proof (sorted_StronglySorted current_index (txn0 :: txns)) as Hss.
  pose proof (filter_sorted current_index) as Hf.
  destruct (sorted current_index (txn0 :: txns)) as [|txn rest] eqn:E.
  { apply Permutation_nil_l in Hp. discriminate Hp. }
  exists txn.
  assert (Htail : tail_transaction (Bundle___init__ (Some (txn0 :: txns))) = Ok txn).
  { unfold tail_transaction, Bundle___getitem__. rewrite Hs. cbn [length].
    rewrite Nat2Z.inj_succ.
    assert (H : ((0 <=? 0) && (0 <? Z.succ (Z.of_nat (length rest))))%Z = true).
    { apply andb_true_iff. split; [reflexivity | apply Z.ltb_lt; lia]. }
    change (0 <? 0)%Z with false. cbv iota. rewrite H. reflexivity. }
  split; [exact Htail|]. split; [|split; [|split]].
  - rewrite <- Hp. left.
  - intros t Ht. rewrite <- Hp in Ht. inversion Hss as [|? ? _ Hall]; subst.
    apply elem_of_cons in Ht as [-> | Ht]; [lia|].
    rewrite Forall_forall in Hall. now apply Hall.
  - rewrite <- Hf, E, filter_cons, decide_True by reflexivity. reflexivity.
  - unfold Bundle_hash. rewrite Htail. reflexivity.
Qed.

(** X8. The constructor leaves a list as it is exactly when the list is in
    ascending order of [current_index]; so a bundle made from the
    transactions of a bundle is the same bundle. *)
Theorem Bundle_init_ascending (txns : list Transaction) :
  (transactions (Bundle___init__ (Some txns)) = txns
   <-> StronglySorted (key_le current_index) txns)
  /\ transactions (Bundle___init__ (Some (transactions (Bundle___init__ (Some txns)))))
     = transactions (Bundle___init__ (Some txns)).
Proof.
  rewrite !Bundle_init_transactions.
  assert (Hiff : forall l : list Transaction,
             sorted current_index l = l <-> StronglySorted (key_le current_index) l).
  { intros l. split.
    - intros <-. apply sorted_StronglySorted.
    - intros Hs. symmetry. now apply sorted_characterised. }
  split; [apply Hiff|]. apply Hiff, sorted_StronglySorted.
Qed.

(** *** Bundles from and to tryte strings *)

Lemma insert_by_Forall2 {A B : Type} (P : A -> B -> Prop) (k1 : A -> Z) (k2 : B -> Z)
    (x : A) (y : B) (l1 : list A) (l2 : list B) :
  (forall a b, P a b -> k1 a = k2 b) ->
  P x y -> Forall2 P l1 l2 ->
  Forall2 P (insert_by k1 x l1) (insert_by k2 y l2).
Proof.
  intros Hk Hxy H. induction H as [|a b l1 l2 Hab Hl IH]; cbn.
  - repeat constructor. exact Hxy.
  - rewrite (Hk x y Hxy), (Hk a b Hab).
    destruct (k2 y <=? k2 b)%Z; repeat constructor; assumption.
Qed.

(** Sorting two lists that correspond element by element, by keys that
    agree on corresponding elements, gives lists that correspond. *)
Lemma sorted_Forall2 {A B : Type} (P : A -> B -> Prop) (k1 : A -> Z) (k2 : B -> Z)
    (l1 : list A) (l2 : list B) :
  (forall a b, P a b -> k1 a = k2 b) ->
  Forall2 P l1 l2 -> Forall2 P (sorted k1 l1) (sorted k2 l2).
Proof.
  intros Hk H. induction H as [|a b l1 l2 Hab _ IH]; cbn; [constructor|].
  now apply insert_by_Forall2.
Qed.

Section BundleTrytes.

Variable truth : TryteString -> bool.
Variable Curl : list Z -> list Z.

(** X9. A bundle made from bodies that the round trip gives back is encoded,
    with [head_to_tail] true, as the same bodies in ascending order of the
    current index they encode, bodies of one index in their input order;
    with [head_to_tail] false as the reverse of that list. *)
Theorem as_tryte_strings_from_tryte_strings (trytes : list TryteString) :
  Forall (round_trips truth) trytes ->
  exists b,
    from_tryte_strings truth Curl trytes = Ok b
    /\ as_tryte_strings truth b true = Ok (sorted body_current_index trytes)
    /\ as_tryte_strings truth b false
       = Ok (reverse (sorted body_current_index trytes)).
Proof.
  intros Hall.
  assert (Hdec : exists txns,
             Forall2 (fun body txn =>
                        as_tryte_string truth txn = Ok body
                        /\ from_tryte_string truth Curl body None = Ok txn
                        /\ body_current_index body = current_index txn)
                     trytes txns).
  { induction Hall as [|body l [Hlen Hrt] _ [txns IH]]; [exists []; constructor|].
    destruct (as_tryte_string_from_tryte_string truth Curl body None Hlen)
      as (txn & b' & Hd & He & _ & Hiff).
    destruct (from_tryte_string_fields truth Curl body None Hlen)
      as (txn2 & Hd2 & _ & _ & _ & _ & _ & Fci & _).
    rewrite Hd in Hd2. injection Hd2 as <-.
    exists (txn :: txns). constructor; [|exact IH].
    apply Hiff in Hrt. subst b'. repeat split; [exact He | exact Hd | now rewrite Fci]. }
  destruct Hdec as [txns Hdec].
  exists (Bundle___init__ (Some txns)).
  assert (Hsorted : Forall2 (fun txn body => as_tryte_string truth txn = Ok body)
                            (sorted current_index txns)
                            (sorted body_current_index trytes)).
  { apply Forall2_flip.
    eapply Forall2_impl;
      [apply (sorted_Forall2 _ body_current_index current_index trytes txns);
       [|exact Hdec] |].
    - now intros a b' (_ & _ & H).
    - now intros a b' (H & _). }
  split; [|split].
  - unfold from_tryte_strings.
    assert (Hm : mapM (fun t => from_tryte_string truth Curl t None) trytes = Ok txns).
    { apply mapM_Ok. eapply Forall2_impl; [exact Hdec|]. now intros a b' (_ & H & _). }
    rewrite Hm. reflexivity.
  - unfold as_tryte_strings. rewrite Bundle_init_transactions.
    apply mapM_Ok. exact Hsorted.
  - unfold as_tryte_strings. rewrite Bundle_init_transactions.
    apply mapM_Ok. now apply Forall2_reverse_2.
Qed.

End BundleTrytes.

Lemma as_tryte_strings_from_tryte_strings_witness :
  exists b,
    from_tryte_strings TryteString_bool zero_sponge [body_index_1; body_both_tags] = Ok b
    /\ as_tryte_strings TryteString_bool b true
       = Ok (sorted body_current_index [body_index_1; body_both_tags])
    /\ as_tryte_strings TryteString_bool b false
       = Ok (reverse (sorted body_current_index [body_index_1; body_both_tags])).
Proof.
  apply (as_tryte_strings_from_tryte_strings TryteString_bool zero_sponge).
  constructor; [split; [reflexivity | right; reflexivity]|].
  constructor; [split; [reflexivity | left; reflexivity]|].
  constructor.
Defined.

(** *** Fragments and messages *)

Lemma foldl_fragments (g : list Transaction) (acc : TryteString) :
  foldl (fun acc txn => acc ++ signature_message_fragment txn) acc g
  = acc ++ concat (map signature_message_fragment g).
Proof.
  revert acc. induction g as [|x g IH]; intros acc; cbn.
  - now rewrite app_nil_r.
  - rewrite IH, <- app_assoc. reflexivity.
Qed.

(** X11. The buffer of a group is its fragments in order, and the buffers of
    the groups of a bundle, one after the other, are the fragments of the
    transactions of the bundle in order: grouping loses no fragment and
    moves none. *)
Theorem message_trytes_fragments (b : Bundle) :
  (forall g, message_trytes g = concat (map signature_message_fragment g))
  /\ concat (map message_trytes (group_transactions b))
     = concat (map signature_message_fragment (transactions b)).
Proof.
  assert (Hg : forall g, message_trytes g = concat (map signature_message_fragment g)).
  { intros g. unfold message_trytes. apply foldl_fragments. }
  split; [exact Hg|].
  rewrite <- (concat_runs (transactions b)), <- group_transactions_runs.
  induction (group_transactions b) as [|g G IH]; [reflexivity|].
  cbn [map concat]. rewrite map_app, concat_app, IH, Hg. reflexivity.
Qed.

Section MessagesMore.

Variable truth : TryteString -> bool.

(** X12. A bundle in which every group is a group of inputs or has a buffer that
    is false as a tryte string yields no message: the call returns the
    empty list under every policy, and the decoder is not consulted, so
    the result is the same with a decoder that always raises. *)
Theorem get_messages_no_carrier (decode : TryteString -> string -> result string)
    (b : Bundle) (errors : string) :
  Forall (fun g => is_input g = true \/ truth (message_trytes g) = false)
         (group_transactions b) ->
  get_messages truth decode b errors = Ok [].
Proof.
  intros Hall. rewrite get_messages_collect.
  replace (filter (fun g => carries_message truth g = true) (group_transactions b))
    with (@nil (list Transaction)); [reflexivity|].
  symmetry. induction Hall as [|g G Hg _ IH]; [reflexivity|].
  rewrite filter_cons_False; [exact IH|].
  unfold carries_message. destruct Hg as [-> | ->]; [discriminate|].
  rewrite andb_false_r. discriminate.
Qed.

(** X13. A returned list has at most one message per group, so no more
    messages than the bundle has groups or transactions. *)
Theorem get_messages_length (decode : TryteString -> string -> result string)
    (b : Bundle) (errors : string) (msgs : list string) :
  get_messages truth decode b errors = Ok msgs ->
  length msgs <= length (group_transactions b)
  /\ length (group_transactions b) <= length (transactions b).
Proof.
  intros H. split.
  - rewrite get_messages_collect in H. apply collect_Ok in H. subst msgs.
    rewrite omap_message_of.
    etransitivity; [|apply (length_filter (fun g => carries_message truth g = true))].
    generalize (filter (fun g => carries_message truth g = true) (group_transactions b)).
    intros l. induction l as [|g l IH]; [reflexivity|].
    cbn. destruct (message_of _); cbn; lia.
  - pose proof (group_transactions_nonempty b) as Hne.
    rewrite <- (concat_runs (transactions b)), <- group_transactions_runs.
    induction Hne as [|g G Hg _ IH]; [reflexivity|].
    cbn [concat length]. rewrite length_app.
    destruct g; [contradiction|]. cbn [length]. lia.
Qed.

End MessagesMore.

Lemma get_messages_no_carrier_witness :
  get_messages TryteString_bool failing_decode inputs_bundle "strict" = Ok [].
Proof.
  apply (get_messages_no_carrier TryteString_bool failing_decode inputs_bundle).
  vm_compute. repeat constructor.
Defined.

Lemma get_messages_length_witness :
  length ["HELLO"%string] <= length (group_transactions hello_bundle)
  /\ length (group_transactions hello_bundle) <= length (transactions hello_bundle).
Proof.
  apply (get_messages_length TryteString_bool ascii_decode hello_bundle "drop").
  vm_compute. reflexivity.
Defined.

(** *** The confirmation flag, once more *)

(** X15. Setting the flag of a bundle twice is setting it to the second value:
    store, bundle and order of assignments are those of the second call
    alone. No object is added to the store or removed from it. *)
Theorem is_confirmed_setter_twice (v1 v2 : option bool)
    (store : gmap ref Transaction) (b : BundleObject) :
  let '(store1, b1, _) := is_confirmed_setter v1 store b in
  is_confirmed_setter v2 store1 b1 = is_confirmed_setter v2 store b
  /\ dom store1 = dom store.
Proof.
  unfold is_confirmed_setter. cbn [transactions_refs _is_confirmed_obj].
  destruct (foldl_assign_is_confirmed v1 (transactions_refs b) (store, []))
    as [_ H1].
  destruct (foldl_assign_is_confirmed v2 (transactions_refs b) (store, []))
    as [L2 H2].
  destruct (foldl_assign_is_confirmed v2 (transactions_refs b)
              ((foldl (assign_is_confirmed v1) (store, []) (transactions_refs b)).1, []))
    as [L12 H12].
  cbn [fst snd] in *.
  split.
  - f_equal; [f_equal|].
    + apply map_eq. intros r. rewrite H12, H2, H1.
      destruct (decide (r ∈ transactions_refs b)); [|reflexivity].
      destruct (store !! r); reflexivity.
    + now rewrite L12, L2.
  - apply set_eq. intros r. rewrite !elem_of_dom, H1.
    destruct (decide (r ∈ transactions_refs b)); [|reflexivity].
    destruct (store !! r); cbn; split; intros [? ?]; eauto; discriminate.
Qed.

(** *** The JSON-compatible projection *)

Section Json.

Variable truth : TryteString -> bool.

Lemma as_json_compatible_lookups (txn : Transaction) :
  let d := Transaction_as_json_compatible truth txn in
  d !! "hash_"%string = Some (json_of_option (hash txn))
  /\ d !! "signature_message_fragment"%string
     = Some (JTrytes (signature_message_fragment txn))
  /\ d !! "address"%string = Some (JTrytes (address txn))
  /\ d !! "value"%string = Some (JInt (value txn))
  /\ d !! "legacy_tag"%string = Some (JTrytes (legacy_tag truth txn))
  /\ d !! "timestamp"%string = Some (JInt (timestamp txn))
  /\ d !! "current_index"%string = Some (JInt (current_index txn))
  /\ d !! "last_index"%string = Some (JInt (last_index txn))
  /\ d !! "bundle_hash"%string = Some (JTrytes (bundle_hash txn))
  /\ d !! "trunk_transaction_hash"%string
     = Some (JTrytes (trunk_transaction_hash txn))
  /\ d !! "branch_transaction_hash"%string
     = Some (JTrytes (branch_transaction_hash txn))
  /\ d !! "tag"%string = Some (JTrytes (tag txn))
  /\ d !! "attachment_timestamp"%string = Some (JInt (attachment_timestamp txn))
  /\ d !! "attachment_timestamp_lower_bound"%string
     = Some (JInt (attachment_timestamp_lower_bound txn))
  /\ d !! "attachment_timestamp_upper_bound"%string
     = Some (JInt (attachment_timestamp_upper_bound txn))
  /\ d !! "nonce"%string = Some (JTrytes (nonce txn)).
Proof.
  cbv zeta. unfold Transaction_as_json_compatible.
  generalize (legacy_tag truth txn). intros lt.
  destruct txn. cbn [hash bundle_hash address value nonce timestamp current_index
    last_index trunk_transaction_hash branch_transaction_hash tag
    attachment_timestamp attachment_timestamp_lower_bound
    attachment_timestamp_upper_bound signature_message_fragment].
  repeat split; vm_compute; reflexivity.
Qed.

(** X16. The projection carries everything the wire format needs: two
    transactions with the same projection have the same hash, the same
    encoding and the same signature validation payload. *)
Theorem as_json_compatible_determines (t1 t2 : Transaction) :
  Transaction_as_json_compatible truth t1 = Transaction_as_json_compatible truth t2 ->
  hash t1 = hash t2
  /\ as_tryte_string truth t1 = as_tryte_string truth t2
  /\ get_signature_validation_trytes truth t1
     = get_signature_validation_trytes truth t2.
Proof.
  intros Heq.
  destruct (as_json_compatible_lookups t1)
    as (A0 & A1 & A2 & A3 & A4 & A5 & A6 & A7 & A8 & A9 & A10 & A11 & A12 & A13
        & A14 & A15).
  destruct (as_json_compatible_lookups t2)
    as (B0 & B1 & B2 & B3 & B4 & B5 & B6 & B7 & B8 & B9 & B10 & B11 & B12 & B13
        & B14 & B15).
  rewrite Heq in A0, A1, A2, A3, A4, A5, A6, A7, A8, A9, A10, A11, A12, A13, A14, A15.
  rewrite A0 in B0. rewrite A1 in B1. rewrite A2 in B2. rewrite A3 in B3.
  rewrite A4 in B4. rewrite A5 in B5. rewrite A6 in B6. rewrite A7 in B7.
  rewrite A8 in B8. rewrite A9 in B9. rewrite A10 in B10. rewrite A11 in B11.
  rewrite A12 in B12. rewrite A13 in B13. rewrite A14 in B14. rewrite A15 in B15.
  injection B1 as B1. injection B2 as B2. injection B3 as B3. injection B4 as B4.
  injection B5 as B5. injection B6 as B6. injection B7 as B7. injection B8 as B8.
  injection B9 as B9. injection B10 as B10. injection B11 as B11.
  injection B12 as B12. injection B13 as B13. injection B14 as B14.
  injection B15 as B15.
  split; [|split].
  - injection B0 as B0. destruct (hash t1), (hash t2); cbn in B0; congruence.
  - unfold as_tryte_string, value_as_trytes, timestamp_as_trytes,
      current_index_as_trytes, last_index_as_trytes, attachment_timestamp_as_trytes,
      attachment_timestamp_lower_bound_as_trytes,
      attachment_timestamp_upper_bound_as_trytes.
    now rewrite B1, B2, B3, B4, B5, B6, B7, B8, B9, B10, B11, B12, B13, B14, B15.
  - unfold get_signature_validation_trytes, value_as_trytes, timestamp_as_trytes,
      current_index_as_trytes, last_index_as_trytes.
    now rewrite B2, B3, B4, B5, B6, B7.
Qed.

(** The projection has exactly the sixteen keys of the wire fields and the
    hash. The confirmation flag is not part of it: setting the flag leaves
    the projection as it was. The projection of a bundle has one dict per
    transaction, in the order of the bundle. *)
Theorem as_json_compatible_keys (txn : Transaction) (v : option bool) (b : Bundle) :
  dom (Transaction_as_json_compatible truth txn)
  = list_to_set
      ["hash_"; "signature_message_fragment"; "address"; "value"; "legacy_tag";
       "timestamp"; "current_index"; "last_index"; "bundle_hash";
       "trunk_transaction_hash"; "branch_transaction_hash"; "tag";
       "attachment_timestamp"; "attachment_timestamp_lower_bound";
       "attachment_timestamp_upper_bound"; "nonce"]%string
  /\ Transaction_as_json_compatible truth txn !! "is_confirmed"%string = None
  /\ Transaction_as_json_compatible truth (set_is_confirmed v txn)
     = Transaction_as_json_compatible truth txn
  /\ Bundle_as_json_compatible truth (Bundle_set_is_confirmed v b)
     = Bundle_as_json_compatible truth b
  /\ length (Bundle_as_json_compatible truth b) = length (transactions b).
Proof.
  split; [|split; [|split; [|split]]].
  - unfold Transaction_as_json_compatible. rewrite dom_list_to_map_L. reflexivity.
  - apply not_elem_of_dom. unfold Transaction_as_json_compatible.
    rewrite dom_list_to_map_L. cbn [fmap list_fmap fst list_to_set].
    intros H. repeat (apply elem_of_union in H as [H | H];
                      [apply elem_of_singleton in H; discriminate H|]).
    now apply elem_of_empty in H.
  - reflexivity.
  - unfold Bundle_as_json_compatible. cbn [Bundle_set_is_confirmed transactions].
    rewrite map_map. reflexivity.
  - unfold Bundle_as_json_compatible. apply length_map.
Qed.

End Json.

Lemma as_json_compatible_determines_witness :
  _legacy_tag txn_no_legacy_tag <> _legacy_tag txn_same_legacy_tag
  /\ hash txn_no_legacy_tag = hash txn_same_legacy_tag
  /\ as_tryte_string TryteString_bool txn_no_legacy_tag
     = as_tryte_string TryteString_bool txn_same_legacy_tag
  /\ get_signature_validation_trytes TryteString_bool txn_no_legacy_tag
     = get_signature_validation_trytes TryteString_bool txn_same_legacy_tag.
Proof.
  split; [discriminate|].
  apply (as_json_compatible_determines TryteString_bool
           txn_no_legacy_tag txn_same_legacy_tag).
  unfold Transaction_as_json_compatible. f_equal.
Defined.

(** *** The codec on inputs *)

Lemma wire_txn_sized : wire_sized wire_txn.
Proof.
  unfold wire_sized.
  repeat split; try (vm_compute; reflexivity); try (vm_compute; discriminate).
  intros l [= <-]. reflexivity.
Defined.

Lemma from_tryte_string_as_tryte_string_witness :
  exists body txn',
    as_tryte_string TryteString_bool wire_txn = Ok body
    /\ len body = 2673%Z
    /\ from_tryte_string TryteString_bool zero_sponge body None = Ok txn'
    /\ value txn' = 5%Z
    /\ current_index txn' = 2%Z
    /\ _legacy_tag txn' = Some tag_A
    /\ as_tryte_string TryteString_bool txn' = Ok body.
Proof.
  destruct (from_tryte_string_as_tryte_string TryteString_bool zero_sponge
              wire_txn None wire_txn_sized)
    as (body & txn' & H1 & H2 & H3 & _ & _ & H4 & H5 & _ & _ & H6 & H).
  exists body, txn'. repeat split; try assumption.
  destruct H as (_&_&_&_&_&_&_&_&_&_&H). exact H.
Defined.

Lemma as_tryte_string_wire_sized_witness :
  exists v ts ci li at_ atl atu,
    as_tryte_string TryteString_bool wire_txn
    = Ok (signature_message_fragment wire_txn ++ address_A ++ v
          ++ tag_A ++ ts ++ ci ++ li ++ bundle_hash wire_txn
          ++ trunk_transaction_hash wire_txn ++ branch_transaction_hash wire_txn
          ++ tag_A ++ at_ ++ atl ++ atu ++ nonce wire_txn)
    /\ (len v = 27%Z /\ int_from_trits (as_trits v) = 5%Z)
    /\ (len ts = 9%Z /\ int_from_trits (as_trits ts) = 1500000000%Z)
    /\ (len ci = 9%Z /\ int_from_trits (as_trits ci) = 2%Z)
    /\ (len li = 9%Z /\ int_from_trits (as_trits li) = 3%Z)
    /\ (len at_ = 9%Z /\ int_from_trits (as_trits at_) = 1500000001%Z)
    /\ (len atl = 9%Z /\ int_from_trits (as_trits atl) = 0%Z)
    /\ (len atu = 9%Z /\ int_from_trits (as_trits atu) = 12%Z).
Proof.
  exact (as_tryte_string_wire_sized TryteString_bool wire_txn wire_txn_sized).
Defined.

Lemma round_trip_idempotent_witness :
  exists txn b' txn',
    from_tryte_string TryteString_bool zero_sponge body_tag_only None = Ok txn
    /\ as_tryte_string TryteString_bool txn = Ok b'
    /\ from_tryte_string TryteString_bool zero_sponge b' None = Ok txn'
    /\ as_tryte_string TryteString_bool txn' = Ok b'.
Proof.
  apply (round_trip_idempotent TryteString_bool zero_sponge body_tag_only None None).
  reflexivity.
Defined.

Lemma from_tryte_string_inj_witness : body_both_tags = body_both_tags.
Proof.
  apply (from_tryte_string_inj TryteString_bool zero_sponge body_both_tags
           body_both_tags None None); reflexivity.
Defined.

Lemma is_tail_from_tryte_string_witness :
  exists txn,
    from_tryte_string TryteString_bool zero_sponge body_index_1 None = Ok txn
    /\ (is_tail txn = true <-> slice 2331 2340 body_index_1 = repeat t9 9).
Proof.
  apply (is_tail_from_tryte_string TryteString_bool zero_sponge body_index_1 None).
  reflexivity.
Defined.

Example as_tryte_strings_from_tryte_strings_example :
  sorted body_current_index [body_index_1; body_both_tags]
  = [body_both_tags; body_index_1]
  /\ body_current_index body_index_1 = 1%Z.
Proof. split; vm_compute; reflexivity. Qed.

(** *** More on bundles from tryte strings and on policies *)

Lemma mapM_total {A B : Type} (f : A -> result B) (Q : B -> Prop) (l : list A) :
  Forall (fun x => exists y, f x = Ok y /\ Q y) l ->
  exists k, mapM f l = Ok k /\ Forall Q k /\ length k = length l.
Proof.
  induction 1 as [|x l (y & Hy & HQ) _ (k & Hk & HQk & Hlen)].
  - exists []. repeat split. constructor.
  - exists (y :: k).
    change (mapM f (x :: l)) with (y' ← f x; k' ← mapM f l; mret (y' :: k')).
    rewrite Hy, Hk. repeat split; [now constructor | cbn; now rewrite Hlen].
Qed.

Section BundleTrytesTotal.

Variable truth : TryteString -> bool.
Variable Curl : list Z -> list Z.

(** X10. Tryte strings of 2673 trytes each always make a bundle, and the bundle
    can always be encoded again, in either order: one body of 2673 trytes
    per tryte string that was given. *)
Theorem as_tryte_strings_total (trytes : list TryteString) :
  Forall (fun body => len body = 2673%Z) trytes ->
  exists b encodings,
    from_tryte_strings truth Curl trytes = Ok b
    /\ length (transactions b) = length trytes
    /\ as_tryte_strings truth b true = Ok encodings
    /\ as_tryte_strings truth b false = Ok (reverse encodings)
    /\ length encodings = length trytes
    /\ Forall (fun body => len body = 2673%Z) encodings.
Proof.
  intros Hall.
  destruct (mapM_total (fun t => from_tryte_string truth Curl t None)
              (fun txn => exists body, as_tryte_string truth txn = Ok body
                                       /\ len body = 2673%Z) trytes)
    as (txns & Hdec & Henc & Hlen).
  { eapply Forall_impl; [exact Hall|]. intros body Hb. cbn beta.
    destruct (from_tryte_string_as_tryte_string_decoded truth Curl body Hb)
      as (txn & b' & Hd & He & Hl).
    exists txn. split; [exact Hd|]. exists b'. split; assumption. }
  assert (Hsorted : Forall (fun txn => exists body, as_tryte_string truth txn = Ok body
                                                    /\ len body = 2673%Z)
                           (sorted current_index txns)).
  { rewrite sorted_perm. exact Henc. }
  destruct (mapM_total (as_tryte_string truth) (fun body => len body = 2673%Z)
              (sorted current_index txns) Hsorted) as (encs & Hencs & Hl & Hn).
  exists (Bundle___init__ (Some txns)), encs.
  unfold from_tryte_strings, as_tryte_strings. rewrite Hdec.
  cbn [mbind mret result_bind result_ret]. rewrite Bundle_init_transactions.
  assert (Hcount : length (sorted current_index txns) = length txns)
    by (now rewrite sorted_perm).
  repeat split; try assumption; try congruence.
  apply mapM_Ok, Forall2_reverse_2, mapM_Ok. exact Hencs.
Qed.

End BundleTrytesTotal.

Lemma as_tryte_strings_total_witness :
  exists b encodings,
    from_tryte_strings TryteString_bool zero_sponge [body_index_1; body_tag_only] = Ok b
    /\ length (transactions b) = 2
    /\ as_tryte_strings TryteString_bool b true = Ok encodings
    /\ as_tryte_strings TryteString_bool b false = Ok (reverse encodings)
    /\ length encodings = 2
    /\ Forall (fun body => len body = 2673%Z) encodings.
Proof.
  apply (as_tryte_strings_total TryteString_bool zero_sponge
           [body_index_1; body_tag_only]).
  repeat constructor.
Defined.

Section Policies.

Variable truth : TryteString -> bool.

(** X14. What strict returns, drop returns: when the call returns a list under
    the policy strict, it returns the same list under drop. *)
Theorem get_messages_strict_drop (decode : TryteString -> string -> result string)
    (b : Bundle) (msgs : list string) :
  get_messages truth decode b "strict" = Ok msgs ->
  get_messages truth decode b "drop" = Ok msgs.
Proof.
  rewrite !get_messages_collect. cbn [String.eqb Ascii.eqb Bool.eqb].
  intros H. pose proof (collect_false_Ok _ _ H) as Hok.
  rewrite (collect_all_Ok false _ Hok) in H.
  rewrite (collect_all_Ok true _ Hok). exact H.
Qed.

End Policies.

Lemma get_messages_strict_drop_witness :
  get_messages TryteString_bool ascii_decode hello_bundle "drop" = Ok ["HELLO"%string].
Proof.
  apply (get_messages_strict_drop TryteString_bool ascii_decode hello_bundle).
  vm_compute. reflexivity.
Defined.

Lemma round_trip_iff_witness :
  (exists b', (txn ← from_tryte_string TryteString_bool zero_sponge body_tag_only None;
               as_tryte_string TryteString_bool txn) = Ok b' /\ len b' = 2673%Z)
  /\ ((txn ← from_tryte_string TryteString_bool zero_sponge body_tag_only None;
       as_tryte_string TryteString_bool txn) = Ok body_tag_only
      <-> round_trips TryteString_bool body_tag_only).
Proof.
  apply (round_trip_iff TryteString_bool zero_sponge body_tag_only None).
  reflexivity.
Defined.
